(** * mzcompose: the Composition engine of [materialize.mzcompose]

    A shallow embedding of [misc/python/materialize/mzcompose/__init__.py]:
    the service munger ([Composition._munge_services]), the scoped override
    ([Composition.override]), the test-case harness ([Composition.test_case])
    and the persistent mode of [Composition.up], with the properties the
    specification states about them. *)

From Stdlib Require Import ZArith String Ascii List Bool Lia.
From stdpp Require Import base option list gmap strings pretty.

Local Open Scope string_scope.
Local Open Scope Z_scope.

(** ** Python exceptions and results *)

(** The exceptions the engine raises or observes.  [UIError] is
    [materialize.ui.UIError] (message and optional hint), [KeyError] is a
    failed dict lookup, [PyException] is any other instance of [Exception]
    (class name and the text [str(e)]), [PyBaseException] is a
    [BaseException] that is not an [Exception] ([KeyboardInterrupt],
    [SystemExit], ...). *)
Inductive exn : Type :=
  | UIError (msg : string) (hint : option string)
  | KeyError (key : string)
  | PyException (cls : string) (msg : string)
  | PyBaseException (cls : string) (msg : string).

(** [isinstance(e, Exception)]: what [except Exception] catches. *)
Definition is_Exception (e : exn) : bool :=
  match e with
  | PyBaseException _ _ => false
  | _ => true
  end.

(** Modelled from the spec: [materialize.ui.UIError] is not part of this
    file; every error carries a human-readable message and an optional hint,
    and [str(e)] is that message.  [str(KeyError(k))] is [repr(k)]. *)
Definition str_exn (e : exn) : string :=
  match e with
  | UIError msg _ => msg
  | KeyError key => "'" ++ key ++ "'"
  | PyException _ msg => msg
  | PyBaseException _ msg => msg
  end.

(** The result of running a piece of Python: a value, or a raised exception. *)
Inductive outcome (A : Type) : Type :=
  | Return (a : A)
  | Raise (e : exn).
Arguments Return {A} a.
Arguments Raise {A} e.

Definition is_Return {A} (o : outcome A) : bool :=
  match o with Return _ => true | Raise _ => false end.

(** A computation over a mutable state [S]: the state survives a raise, as
    every mutation made before a Python exception does. *)
Definition Py (S A : Type) : Type := S -> outcome A * S.

Definition ret {S A} (a : A) : Py S A := fun s => (Return a, s).
Definition raise {S A} (e : exn) : Py S A := fun s => (Raise e, s).
Definition bind {S A B} (m : Py S A) (k : A -> Py S B) : Py S B :=
  fun s =>
    match m s with
    | (Return a, s') => k a s'
    | (Raise e, s') => (Raise e, s')
    end.
Definition get {S} : Py S S := fun s => (Return s, s).
Definition modify {S} (f : S -> S) : Py S unit := fun s => (Return tt, f s).

(** [try: body finally: cleanup] *)
Definition try_finally {S A} (body : Py S A) (cleanup : Py S unit) : Py S A :=
  fun s =>
    let '(o, s1) := body s in
    match cleanup s1 with
    | (Return _, s2) => (o, s2)
    | (Raise e, s2) => (Raise e, s2)
    end.

Declare Scope py_scope.
Delimit Scope py_scope with py.
Notation "x <- m ;; k" := (bind m (fun x => k))
  (at level 100, m at next level, right associativity) : py_scope.
Notation "m ;;; k" := (bind m (fun _ => k))
  (at level 100, right associativity) : py_scope.

(** ** Strings *)

(** [":" in s] *)
Fixpoint contains_colon (s : string) : bool :=
  match s with
  | EmptyString => false
  | String c s' => if Ascii.eqb c ":" then true else contains_colon s'
  end.

(** [s.startswith(p)] *)
Definition startswith (s p : string) : bool := String.prefix p s.

(** [s.endswith(p)] *)
Definition endswith (s p : string) : bool :=
  String.prefix (String.rev p) (String.rev s).

(** ** The service model *)

(** An entry of [ports]: [Union[int, str]]. *)
Inductive port : Type :=
  | PortInt (n : Z)
  | PortStr (s : string).

(** [str(port)] *)
Definition str_port (p : port) : string :=
  match p with
  | PortInt n => pretty n
  | PortStr s => s
  end.

(** [":" in str(port)]: the port carries an explicit host binding. *)
Definition host_bound (p : port) : bool := contains_colon (str_port p).

(** [ServiceConfig]: a [TypedDict] with [total=False]; a key that is absent is
    [None].  Only the keys the engine reads or writes are fields of their own
    ([user] is written by the munger); the other keys of the class
    ([hostname], [extra_hosts], [init], [depends_on], [tmpfs], [networks],
    [deploy], [ulimits], [working_dir], [healthcheck], [restart]) are never
    touched and are carried in [extra] by their rendered text. *)
Record ServiceConfig : Type := mkServiceConfig {
  mzbuild : option string;
  propagate_uid_gid : option bool;
  allow_host_ports : option bool;
  image : option string;
  user : option string;
  entrypoint : option (list string);
  command : option (list string);
  ports : option (list port);
  environment : option (list string);
  volumes : option (list string);
  extra : list (string * string)
}.

(** The empty dict [{}]. *)
Definition empty_config : ServiceConfig :=
  mkServiceConfig None None None None None None None None None None [].

Definition set_mzbuild (v : option string) (c : ServiceConfig) : ServiceConfig :=
  mkServiceConfig v (propagate_uid_gid c) (allow_host_ports c) (image c) (user c)
    (entrypoint c) (command c) (ports c) (environment c) (volumes c) (extra c).
Definition set_propagate_uid_gid (v : option bool) (c : ServiceConfig) : ServiceConfig :=
  mkServiceConfig (mzbuild c) v (allow_host_ports c) (image c) (user c)
    (entrypoint c) (command c) (ports c) (environment c) (volumes c) (extra c).
Definition set_allow_host_ports (v : option bool) (c : ServiceConfig) : ServiceConfig :=
  mkServiceConfig (mzbuild c) (propagate_uid_gid c) v (image c) (user c)
    (entrypoint c) (command c) (ports c) (environment c) (volumes c) (extra c).
Definition set_image (v : option string) (c : ServiceConfig) : ServiceConfig :=
  mkServiceConfig (mzbuild c) (propagate_uid_gid c) (allow_host_ports c) v (user c)
    (entrypoint c) (command c) (ports c) (environment c) (volumes c) (extra c).
Definition set_user (v : option string) (c : ServiceConfig) : ServiceConfig :=
  mkServiceConfig (mzbuild c) (propagate_uid_gid c) (allow_host_ports c) (image c) v
    (entrypoint c) (command c) (ports c) (environment c) (volumes c) (extra c).
Definition set_entrypoint (v : option (list string)) (c : ServiceConfig) : ServiceConfig :=
  mkServiceConfig (mzbuild c) (propagate_uid_gid c) (allow_host_ports c) (image c) (user c)
    v (command c) (ports c) (environment c) (volumes c) (extra c).
Definition set_command (v : option (list string)) (c : ServiceConfig) : ServiceConfig :=
  mkServiceConfig (mzbuild c) (propagate_uid_gid c) (allow_host_ports c) (image c) (user c)
    (entrypoint c) v (ports c) (environment c) (volumes c) (extra c).
Definition set_ports (v : option (list port)) (c : ServiceConfig) : ServiceConfig :=
  mkServiceConfig (mzbuild c) (propagate_uid_gid c) (allow_host_ports c) (image c) (user c)
    (entrypoint c) (command c) v (environment c) (volumes c) (extra c).
Definition set_environment (v : option (list string)) (c : ServiceConfig) : ServiceConfig :=
  mkServiceConfig (mzbuild c) (propagate_uid_gid c) (allow_host_ports c) (image c) (user c)
    (entrypoint c) (command c) (ports c) v (volumes c) (extra c).
Definition set_volumes (v : option (list string)) (c : ServiceConfig) : ServiceConfig :=
  mkServiceConfig (mzbuild c) (propagate_uid_gid c) (allow_host_ports c) (image c) (user c)
    (entrypoint c) (command c) (ports c) (environment c) v (extra c).

(** [Service]: a name and its config. *)
Record Service : Type := mkService {
  service_name : string;
  service_config : ServiceConfig
}.

(** Modelled from the spec: [mzbuild.DependencySet] is not part of this file.
    It is indexed by build-reference name; [deps[name].spec()] is the concrete
    image reference, and indexing a name it does not hold raises [KeyError]. *)
Definition DependencySet : Type := gmap string string.

(** What the munger reads of [mzbuild.Repository]: the known images
    ([repo.images], by name), the coverage flag ([repo.rd.coverage]) and
    [repo.resolve_dependencies]. *)
Record Repository : Type := mkRepository {
  images : gset string;
  coverage : bool;
  resolve_dependencies : list string -> DependencySet
}.

(** ** The specification munger: [Composition._munge_services] *)

(** The double-quote character, for messages that contain it. *)
Definition dquote : string := String (ascii_of_nat 34) EmptyString.

(** [UIError(f"mzcompose: unknown image {image_name}")] *)
Definition UnknownBuildTarget (image_name : string) : exn :=
  UIError ("mzcompose: unknown image " ++ image_name) None.

(** The error of a host-bound port that is not allowed.  The message is not an
    f-string in the source, so [{name!r}] stays as it is written. *)
Definition DisallowedHostPort : exn :=
  UIError "programming error: disallowed host port in service {name!r}"
    (Some ("Add `" ++ dquote ++ "allow_host_ports" ++ dquote
           ++ ": True` to the service config to disable this check.")).

Definition coverage_volume : string := "./coverage:/coverage".

(** [f"LLVM_PROFILE_FILE=/coverage/{name}-%p-%9m%c.profraw"] *)
Definition llvm_profile_file (name : string) : string :=
  "LLVM_PROFILE_FILE=/coverage/" ++ name ++ "-%p-%9m%c.profraw".

(** An environment entry that sets the coverage output path. *)
Definition is_llvm_profile_entry (env : string) : bool :=
  startswith env "LLVM_PROFILE_FILE=".

(** The [for i, env in enumerate(...)] loop of the coverage step: the first
    entry that starts with [LLVM_PROFILE_FILE=] is overwritten and the loop
    breaks ([Some]); [None] when the loop runs to its [else]. *)
Fixpoint replace_llvm_profile_file (new : string) (envs : list string)
  : option (list string) :=
  match envs with
  | [] => None
  | env :: rest =>
      if is_llvm_profile_entry env then Some (new :: rest)
      else match replace_llvm_profile_file new rest with
           | Some rest' => Some (env :: rest')
           | None => None
           end
  end.

(** The body of [if self.repo.rd.coverage:]. *)
Definition inject_coverage (name : string) (config : ServiceConfig) : ServiceConfig :=
  let config1 :=
    if decide (coverage_volume ∈ default [] (volumes config)) then config
    else set_volumes (Some (default [] (volumes config) ++ [coverage_volume])%list) config in
  let envs := default [] (environment config1) in
  match replace_llvm_profile_file (llvm_profile_file name) envs with
  | Some envs' => set_environment (Some envs') config1
  | None => set_environment (Some (envs ++ [llvm_profile_file name])%list) config1
  end.

Section Munger.

(** [self.repo], [self.preserve_ports], [os.getuid()] and [os.getgid()]. *)
Variable repo : Repository.
Variable preserve_ports : bool.
Variables uid gid : N.

(** The [for i, port in enumerate(ports)] loop: the ports as the loop leaves
    them, and the error it raised, if any.  Entries before a raise are
    already rewritten, the others are untouched. *)
Fixpoint munge_ports (allow : bool) (ps : list port) : list port * option exn :=
  match ps with
  | [] => ([], None)
  | p :: rest =>
      if preserve_ports && negb (host_bound p) then
        let '(rest', err) := munge_ports allow rest in
        (PortStr (str_port p ++ ":" ++ str_port p) :: rest', err)
      else if host_bound p && negb allow then
        (p :: rest, Some DisallowedHostPort)
      else
        let '(rest', err) := munge_ports allow rest in
        (p :: rest', err)
  end.

(** [if "mzbuild" in config: ...]: the image to remember, if any. *)
Definition remember_mzbuild : Py ServiceConfig (list string) :=
  fun config =>
    match mzbuild config with
    | Some image_name =>
        if decide (image_name ∈ images repo) then (Return [image_name], config)
        else (Raise (UnknownBuildTarget image_name), config)
    | None => (Return [], config)
    end.

(** [if "propagate_uid_gid" in config: ...] *)
Definition propagate_user (config : ServiceConfig) : ServiceConfig :=
  match propagate_uid_gid config with
  | Some b =>
      set_propagate_uid_gid None
        (if b then set_user (Some (pretty uid ++ ":" ++ pretty gid)) config
         else config)
  | None => config
  end.

(** [ports = config.setdefault("ports", [])] and the loop over it. *)
Definition check_ports : Py ServiceConfig unit :=
  fun config =>
    let allow := default false (allow_host_ports config) in
    let '(ps, err) := munge_ports allow (default [] (ports config)) in
    let config' := set_ports (Some ps) config in
    match err with
    | Some e => (Raise e, config')
    | None => (Return tt, config')
    end.

(** The body of the first loop of [_munge_services], on one service: the
    images it adds to [images], and the config dict as it leaves it. *)
Definition munge_service (name : string) : Py ServiceConfig (list string) :=
  (imgs <- remember_mzbuild ;;
   modify propagate_user ;;;
   check_ports ;;;
   modify (set_allow_host_ports None) ;;;
   modify (fun config => if coverage repo then inject_coverage name config else config) ;;;
   ret imgs)%py.

(** The body of the second loop: the build reference becomes the image. *)
Definition substitute_image (deps : DependencySet) : Py ServiceConfig unit :=
  fun config =>
    match mzbuild config with
    | Some image_name =>
        match deps !! image_name with
        | Some spec => (Return tt, set_mzbuild None (set_image (Some spec) config))
        | None => (Raise (KeyError image_name), config)
        end
    | None => (Return tt, config)
    end.

(** [for name, config in services: body].  The state is the list of
    [(name, config)] pairs itself: each position stands for one config dict
    (the entries of [self.compose["services"]], or the configs of the
    [Service] objects given to [override], are taken to be distinct dicts),
    which the body mutates in place; a raise leaves the later ones
    untouched and the earlier mutations in place. *)
Fixpoint for_services {A} (body : string -> Py ServiceConfig A)
    (services : list (string * ServiceConfig))
  : outcome (list A) * list (string * ServiceConfig) :=
  match services with
  | [] => (Return [], [])
  | (name, config) :: rest =>
      match body name config with
      | (Raise e, config') => (Raise e, (name, config') :: rest)
      | (Return a, config') =>
          let '(o, rest') := for_services body rest in
          (match o with
           | Return l => Return (a :: l)
           | Raise e => Raise e
           end, (name, config') :: rest')
      end
  end.

Definition _munge_services : Py (list (string * ServiceConfig)) DependencySet :=
  (images <- for_services munge_service ;;
   let deps := resolve_dependencies repo (concat images) in
   for_services (fun _ => substitute_image deps) ;;;
   ret deps)%py.

(** The steps of [munge_service] after the build reference was remembered,
    written out: used to reason about the loop body case by case. *)
Definition normalise (name : string) (imgs : list string) (config : ServiceConfig)
  : outcome (list string) * ServiceConfig :=
  let c1 := propagate_user config in
  let allow := default false (allow_host_ports c1) in
  let checked := munge_ports allow (default [] (ports c1)) in
  let c2 := set_ports (Some (fst checked)) c1 in
  match snd checked with
  | Some e => (Raise e, c2)
  | None =>
      let c3 := set_allow_host_ports None c2 in
      (Return imgs, if coverage repo then inject_coverage name c3 else c3)
  end.

End Munger.

(** What a config looks like after a loop body ran on it, whatever the
    result, and whether the body returned on it. *)
Definition after {A} (body : string -> Py ServiceConfig A)
    (entry : string * ServiceConfig) : string * ServiceConfig :=
  (fst entry, snd (body (fst entry) (snd entry))).

Definition succeeds {A} (body : string -> Py ServiceConfig A)
    (entry : string * ServiceConfig) : Prop :=
  is_Return (fst (body (fst entry) (snd entry))) = true.




(** ** The Composition *)

(** The compose document: [{"version": ..., "services": {...}, "volumes":
    {...}}].  Every volume maps to [None]. *)
Record Specification : Type := mkSpecification {
  version : string;
  services : gmap string ServiceConfig;
  spec_volumes : gmap string unit
}.

Definition set_services (m : gmap string ServiceConfig) (d : Specification)
  : Specification :=
  mkSpecification (version d) m (spec_volumes d).

(** [Composition.TestResult].  [time.time()] readings and their differences
    are kept as numbers of clock ticks. *)
Record TestResult : Type := mkTestResult {
  duration : Z;
  error : option string
}.

(** The attributes of a [Composition].  [file] is the content of the temporary
    file and [fileno] its descriptor; [test_results] is insertion ordered. *)
Record Composition : Type := mkComposition {
  name : string;
  repo : Repository;
  preserve_ports : bool;
  project_name : option string;
  silent : bool;
  path : string;
  compose : Specification;
  file : string;
  fileno : N;
  test_results : list (string * TestResult)
}.

Definition set_compose (d : Specification) (c : Composition) : Composition :=
  mkComposition (name c) (repo c) (preserve_ports c) (project_name c) (silent c)
    (path c) d (file c) (fileno c) (test_results c).
Definition set_file (f : string) (c : Composition) : Composition :=
  mkComposition (name c) (repo c) (preserve_ports c) (project_name c) (silent c)
    (path c) (compose c) f (fileno c) (test_results c).
Definition set_test_results (r : list (string * TestResult)) (c : Composition)
  : Composition :=
  mkComposition (name c) (repo c) (preserve_ports c) (project_name c) (silent c)
    (path c) (compose c) (file c) (fileno c) r.

(** [subprocess.CompletedProcess], as far as callers read it. *)
Record CompletedProcess : Type := mkCompletedProcess {
  returncode : Z;
  stdout : option string
}.

(** [d[key] = value] on an insertion-ordered dict: an existing key keeps its
    place, a new one goes last. *)
Fixpoint dict_set {V} (key : string) (value : V) (d : list (string * V))
  : list (string * V) :=
  match d with
  | [] => [(key, value)]
  | (k, v) :: rest =>
      if String.eqb k key then (k, value) :: rest
      else (k, v) :: dict_set key value rest
  end.

(** [d.get(key)] *)
Fixpoint dict_get {V} (key : string) (d : list (string * V)) : option V :=
  match d with
  | [] => None
  | (k, v) :: rest => if String.eqb k key then Some v else dict_get key rest
  end.

(** [key in d] *)
Definition dict_mem {V} (key : string) (d : list (string * V)) : bool :=
  match dict_get key d with Some _ => true | None => false end.

Section Engine.

(** What lies outside the process: the container runtime and the clock.
    (What the methods print to the terminal is left out.)
    [docker argv stdin file w] runs the command line [argv] with the given
    standard input against the compose file whose content is [file], and
    gives its exit status and standard output; [acquire deps w] is
    [deps.acquire()]; [now w] is [time.time()]; [serialize] is [yaml.dump];
    [uid] and [gid] are [os.getuid()] and [os.getgid()]. *)
Variable World : Type.
Variable docker : list string -> option string -> string -> World -> (Z * string) * World.
Variable acquire : DependencySet -> World -> option exn * World.
Variable now : World -> Z.
Variable serialize : Specification -> string.
Variables uid gid : N.

(** The state a method runs in: the composition and the world around it. *)
Record state : Type := mkState {
  self : Composition;
  world : World
}.

Definition on_self (f : Composition -> Composition) (st : state) : state :=
  mkState (f (self st)) (world st).

(** [Composition._write_compose] *)
Definition _write_compose : Py state unit :=
  modify (on_self (fun c => set_file (serialize (compose c)) c)).

(** The command line [invoke] runs. *)
Definition compose_argv (c : Composition) (args : list string) : list string :=
  let project_name_args :=
    match project_name c with
    | Some p => if String.eqb p "" then [] else ["--project-name"; p]
    | None => []
    end in
  let fd := "-f/dev/fd/" ++ pretty (fileno c) in
  (["docker"; "compose"; fd; "--project-directory"; path c]
     ++ project_name_args ++ args)%list.

(** [UIError(f"running docker compose failed (exit status {e.returncode})")] *)
Definition RuntimeInvocationFailed (status : Z) : exn :=
  UIError ("running docker compose failed (exit status " ++ pretty status ++ ")") None.

(** [Composition.invoke] *)
Definition invoke (args : list string) (capture : bool) (stdin : option string)
    (check : bool) : Py state CompletedProcess :=
  fun st =>
    let c := self st in
    let '((status, out), w) :=
      docker (compose_argv c args) stdin (file c) (world st) in
    let st' := mkState c w in
    if check && negb (status =? 0) then (Raise (RuntimeInvocationFailed status), st')
    else
      (Return (mkCompletedProcess status (if capture then Some out else None)), st').

(** [any(image.endswith(tag) for tag in [":latest", ":unstable", ":rolling"])] *)
Definition variable_tag (img : string) : bool :=
  existsb (endswith img) [":latest"; ":unstable"; ":rolling"].

(** [Composition.pull_if_variable] *)
Fixpoint pull_if_variable (names : list string) : Py state unit :=
  match names with
  | [] => ret tt
  | service :: rest =>
      (st <- get ;;
       match services (compose (self st)) !! service with
       | None => raise (KeyError service)
       | Some config =>
           match image config with
           | Some img =>
               if variable_tag img
               then (invoke ["pull"; service] false None true ;;; pull_if_variable rest)
               else pull_if_variable rest
           | None => pull_if_variable rest
           end
       end)%py
  end.

(** [for service in services: self.compose["services"][service.name] =
    service.config] *)
Definition install (svcs : list (string * ServiceConfig)) (d : Specification)
  : Specification :=
  set_services
    (foldl (fun m '(n, config) => <[n := config]> m) (services d) svcs) d.

(** [Composition.override], up to its [yield].  The configs of the given
    services are munged in place and those same dicts are installed in the
    live specification. *)
Definition override_enter (svcs : list Service) : Py state unit :=
  fun st =>
    let c := self st in
    match _munge_services (repo c) (preserve_ports c) uid gid
            (map (fun s => (service_name s, service_config s)) svcs) with
    | (Raise e, _) => (Raise e, st)
    | (Return deps, munged) =>
        let st1 := on_self (fun c => set_compose (install munged (compose c)) c) st in
        match acquire deps (world st1) with
        | (Some e, w) => (Raise e, mkState (self st1) w)
        | (None, w) =>
            (_write_compose ;;;
             pull_if_variable (map service_name svcs))%py (mkState (self st1) w)
        end
    end.

(** The [finally] block of [Composition.override]. *)
Definition override_exit (old_compose : Specification) : Py state unit :=
  (modify (on_self (set_compose old_compose)) ;;;
   _write_compose)%py.

(** [with c.override(services...): body].  [old_compose] is a deep copy, so it
    is the value of the live specification at entry whatever is mutated
    afterwards. *)
Definition override (svcs : list Service) (body : Py state unit) : Py state unit :=
  fun st =>
    let old_compose := compose (self st) in
    (override_enter svcs ;;;
     try_finally body (override_exit old_compose))%py st.

(** [with c.test_case(name): body] *)
Definition DuplicateTestCase (name : string) : exn :=
  UIError ("test case " ++ name ++ " executed twice") None.

Definition record_result (name : string) (r : TestResult) : state -> state :=
  on_self (fun c => set_test_results (dict_set name r (test_results c)) c).

Definition test_case (name : string) (body : Py state unit) : Py state unit :=
  fun st =>
    if dict_mem name (test_results (self st)) then
      (Raise (DuplicateTestCase name), st)
    else
      let start_time := now (world st) in
      match body st with
      | (Return _, st1) =>
          let elapsed := now (world st1) - start_time in
          (Return tt, record_result name (mkTestResult elapsed None) st1)
      | (Raise e, st1) =>
          if is_Exception e then
            let elapsed := now (world st1) - start_time in
            (Return tt, record_result name (mkTestResult elapsed (Some (str_exn e))) st1)
          else (Raise e, st1)
      end.

(** What [up] writes into every service in persistent mode. *)
Definition make_persistent (config : ServiceConfig) : ServiceConfig :=
  set_command (Some []) (set_entrypoint (Some ["sleep"; "infinity"]) config).

(** The live specification while a persistent [up] runs: the loop
    [for service in self.compose["services"].values()] applied to it. *)
Definition persistent_spec (d : Specification) : Specification :=
  set_services (make_persistent <$> services d) d.

(** The arguments [up] passes to [invoke]. *)
Definition up_args (names : list string) (detach wait : bool) : list string :=
  (["up"] ++ (if detach then ["--detach"] else [])
          ++ (if wait then ["--wait"] else []) ++ names)%list.

(** [Composition.up] *)
Definition up (names : list string) (detach wait persistent : bool)
  : Py state unit :=
  fun st =>
    let old_compose := compose (self st) in
    ((if persistent then
        (modify (on_self (fun c => set_compose (persistent_spec (compose c)) c)) ;;;
         _write_compose)
      else ret tt) ;;;
     invoke (up_args names detach wait) false None true ;;;
     (if persistent then
        (modify (on_self (set_compose old_compose)) ;;;
         _write_compose)
      else ret tt))%py st.

End Engine.

Arguments self {World} s.
Arguments world {World} s.
Arguments mkState {World} self world.
Arguments on_self {World} f st.
Arguments record_result {World} name r st.

(** ** A small composition, for the examples *)

(** A repository that knows one image and resolves a name to a tagged image
    reference. *)
Definition example_resolve (names : list string) : DependencySet :=
  list_to_map (map (fun n => (n, "materialize/" ++ n ++ ":mzbuild-X")) names).

Definition example_repo : Repository :=
  mkRepository {["materialized"]} false example_resolve.

(** [{"image": "postgres:14", "command": ["postgres"]}] *)
Definition postgres_config : ServiceConfig :=
  set_command (Some ["postgres"]) (set_image (Some "postgres:14") empty_config).

(** The five default volumes. *)
Definition default_volumes : gmap string unit :=
  list_to_map [("mzdata", tt); ("pgdata", tt); ("mydata", tt); ("tmp", tt);
               ("secrets", tt)].

Definition example_spec : Specification :=
  mkSpecification "3.7" {["postgres" := postgres_config]} default_volumes.

(** A stand-in for [yaml.dump] that is enough to tell the examples apart: the
    services in the order of the map, each with its image and entrypoint. *)
Definition example_dump (d : Specification) : string :=
  String.concat ";"
    (map (fun entry : string * ServiceConfig =>
            fst entry ++ " image=" ++ default "~" (image (snd entry))
                      ++ " entrypoint="
                      ++ String.concat " " (default [] (entrypoint (snd entry))))
         (map_to_list (services d))).

Definition example_composition : Composition :=
  mkComposition "demo" example_repo false None true "/demo" example_spec
    (example_dump example_spec) 3 [].

(** A world that is just the clock reading; a runtime whose every command
    takes one tick and exits with the given status; an [acquire] that
    succeeds. *)
Definition example_docker (status : Z)
    (argv : list string) (stdin : option string) (content : string) (w : Z)
  : (Z * string) * Z :=
  ((status, ""), w + 1).

Definition example_acquire (deps : DependencySet) (w : Z) : option exn * Z :=
  (None, w).

Definition example_now (w : Z) : Z := w.

Definition example_state : state Z := mkState example_composition 100.

(** Bodies of [with] blocks: one that fails a bare [assert] while the clock is
    set back by five ticks, one that fails with a [UIError] after three
    ticks, one that is interrupted from the keyboard, one that returns after
    two ticks. *)
Definition failing_assert : Py (state Z) unit :=
  fun st => (Raise (PyException "AssertionError" ""), mkState (self st) (world st - 5)).

Definition failing_query : Py (state Z) unit :=
  fun st => (Raise (UIError "query returned no rows" None),
             mkState (self st) (world st + 3)).

Definition interrupted : Py (state Z) unit :=
  fun st => (Raise (PyBaseException "KeyboardInterrupt" ""), st).

Definition passing : Py (state Z) unit :=
  fun st => (Return tt, mkState (self st) (world st + 2)).


(** ** Ports, one-off commands and loading *)

(** [s.split(":")]: the segments between the colons; never empty. *)
Fixpoint split_colon (s : string) : list string :=
  match s with
  | EmptyString => [EmptyString]
  | String c s' =>
      if Ascii.eqb c ":" then EmptyString :: split_colon s'
      else match split_colon s' with
           | seg :: segs => String c seg :: segs
           | [] => [String c EmptyString]
           end
  end.

(** [str(port).split(":")[-1]]: the container side of a port entry. *)
Definition private_port (p : port) : string :=
  List.last (split_colon (str_port p)) EmptyString.

(** [c.isspace()] for a character below 256: what [str.strip()] removes. *)
Definition is_space (c : ascii) : bool :=
  let n := nat_of_ascii c in
  ((9 <=? n) && (n <=? 13) || (28 <=? n) && (n <=? 32) || (n =? 133) || (n =? 160))%nat.

(** [not s.strip()]: nothing is left of [s] once the white space is gone. *)
Fixpoint blank (s : string) : bool :=
  match s with
  | EmptyString => true
  | String c s' => is_space c && blank s'
  end.

(** A config as the munger renders it: none of the three extension keys, and
    a [ports] key. *)
Definition rendered (config : ServiceConfig) : Prop :=
  mzbuild config = None /\
  propagate_uid_gid config = None /\
  allow_host_ports config = None /\
  is_Some (ports config).

(** Every service of the live specification is rendered. *)
Definition clean_spec (d : Specification) : Prop :=
  forall n config, services d !! n = Some config -> rendered config.

(** [UnknownCompositionError(name)], [repr] being the [!r] conversion. *)
Definition UnknownCompositionError (repr : string -> string) (name : string) : exn :=
  UIError ("unknown composition " ++ repr name) None.

(** [UIError(f"service {name!r} specified more than once")] *)
Definition DuplicateService (repr : string -> string) (name : string) : exn :=
  UIError ("service " ++ repr name ++ " specified more than once") None.

(** The loop over [SERVICES] in [Composition.__init__]: the [services] dict
    it fills, in insertion order, starting from [seen]. *)
Fixpoint load_services (repr : string -> string) (SERVICES : list Service)
    (seen : list (string * ServiceConfig))
  : outcome (list (string * ServiceConfig)) :=
  match SERVICES with
  | [] => Return seen
  | python_service :: rest =>
      if dict_mem (service_name python_service) seen
      then Raise (DuplicateService repr (service_name python_service))
      else load_services repr rest
             (seen ++ [(service_name python_service, service_config python_service)])%list
  end.

Section Commands.

(** As in [Engine]; [repr] is the [!r] conversion of a string and [py_int]
    is [int] on a string ([None] for a [ValueError]). *)
Variable World : Type.
Variable docker : list string -> option string -> string -> World -> (Z * string) * World.
Variable serialize : Specification -> string.
Variables uid gid : N.
Variable repr : string -> string.
Variable py_int : string -> option Z.

(** The file holds the serialization of the live specification. *)
Definition in_sync (st : state World) : Prop :=
  file (self st) = serialize (compose (self st)).

(** [repr(private_port)] *)
Definition repr_port (p : port) : string :=
  match p with
  | PortInt n => pretty n
  | PortStr s => repr s
  end.

(** The error of [Composition.port] for a port that is not exposed; the [f]
    before the service name is in the source. *)
Definition PortNotExposed (service : string) (p : port) : exn :=
  UIError ("service f" ++ repr service ++ " is not exposing port " ++ repr_port p)
    (Some "is the service running?").

(** The error of [Composition.default_port] for a service without ports. *)
Definition NoPortsDeclared (service : string) : exn :=
  UIError ("service f" ++ repr service ++ " does not expose any ports") None.

(** [Composition.port] *)
Definition composition_port (service : string) (p : port) : Py (state World) Z :=
  (proc <- invoke World docker ["port"; service; str_port p] true None true ;;
   let out := default "" (stdout proc) in
   if blank out then raise (PortNotExposed service p)
   else match split_colon out !! 1%nat with
        | None => raise (PyException "IndexError" "list index out of range")
        | Some field =>
            match py_int field with
            | Some n => ret n
            | None =>
                raise (PyException "ValueError"
                         ("invalid literal for int() with base 10: " ++ repr field))
            end
        end)%py.

(** [Composition.default_port] *)
Definition default_port (service : string) : Py (state World) Z :=
  (st <- get ;;
   match services (compose (self st)) !! service with
   | None => raise (KeyError service)
   | Some config =>
       match ports config with
       | None => raise (KeyError "ports")
       | Some [] => raise (NoPortsDeclared service)
       | Some (p :: _) => composition_port service (PortStr (private_port p))
       end
   end)%py.

(** The arguments of the zero-scale [up] that [run] issues first. *)
Definition scale_zero_args (service : string) : list string :=
  ["up"; "--detach"; "--scale"; service ++ "=0"; service].

(** [f"-e{k}={v}"] *)
Definition env_flag (kv : string * string) : string :=
  "-e" ++ fst kv ++ "=" ++ snd kv.

(** The arguments of the [run] command itself. *)
Definition run_args (service : string) (args : list string) (detach rm : bool)
    (env_extra : list (string * string)) (entrypoint : option string) : list string :=
  (["run"]
     ++ match entrypoint with
        | Some e => if String.eqb e "" then [] else ["--entrypoint"; e]
        | None => []
        end
     ++ map env_flag env_extra
     ++ (if detach then ["--detach"] else [])
     ++ (if rm then ["--rm"] else [])
     ++ service :: args)%list.

(** [Composition.run]; [env_extra] is the dict in insertion order.  Here and
    in [exec], [capture_stderr] only redirects the error stream of the
    command and is left out. *)
Definition run (service : string) (args : list string) (detach rm : bool)
    (env_extra : list (string * string)) (capture : bool) (stdin : option string)
    (entrypoint : option string) (check : bool) : Py (state World) CompletedProcess :=
  (invoke World docker (scale_zero_args service) false None true ;;;
   invoke World docker (run_args service args detach rm env_extra entrypoint)
     capture stdin check)%py.

(** The arguments of the [exec] command, for the config of the service. *)
Definition exec_args (service : string) (config : ServiceConfig) (args : list string)
    (detach : bool) : list string :=
  (["exec"] ++ (if detach then ["--detach"] else []) ++ ["-T"; service]
     ++ default [] (entrypoint config) ++ args)%list.

(** [Composition.exec]: the lookup of the service happens while the
    arguments are built, before [invoke] is called. *)
Definition exec (service : string) (args : list string) (detach capture : bool)
    (stdin : option string) (check : bool) : Py (state World) CompletedProcess :=
  (st <- get ;;
   match services (compose (self st)) !! service with
   | None => raise (KeyError service)
   | Some config =>
       invoke World docker (exec_args service config args detach) capture stdin check
   end)%py.

(** [Composition.testdrive] *)
Definition testdrive (input : string) (service : string) (persistent : bool)
    (args : list string) : Py (state World) unit :=
  (if persistent
   then (exec service args false false (Some input) true ;;; ret tt)
   else (run service args false false [] false (Some input) None true ;;; ret tt))%py.

(** [for service in names: self.invoke("pull", service)] *)
Fixpoint pull_each (names : list string) : Py (state World) unit :=
  match names with
  | [] => ret tt
  | service :: rest =>
      (invoke World docker ["pull"; service] false None true ;;; pull_each rest)%py
  end.

(** The config of a service has an image with a tag that may move. *)
Definition has_variable_tag (d : Specification) (service : string) : bool :=
  match services d !! service with
  | Some config =>
      match image config with
      | Some img => variable_tag img
      | None => false
      end
  | None => false
  end.

(** [Composition.__init__], given what loading [mzcompose.py] yields: the
    [SERVICES] of the module (none when there is no file); [compositions] is
    [repo.compositions], [fileno] the descriptor of the temporary file.  The
    workflows and the description of the module are not kept. *)
Definition new_composition (compositions : gmap string string) (repo : Repository)
    (name : string) (preserve_ports silent munge_services : bool)
    (project_name : option string) (SERVICES : list Service) (fileno : N)
  : outcome Composition :=
  match compositions !! name with
  | None => Raise (UnknownCompositionError repr name)
  | Some path =>
      match load_services repr SERVICES [] with
      | Raise e => Raise e
      | Return items =>
          let munged :=
            if munge_services
            then _munge_services repo preserve_ports uid gid items
            else (Return (∅ : DependencySet), items) in
          match fst munged with
          | Raise e => Raise e
          | Return _ =>
              let compose :=
                mkSpecification "3.7" (list_to_map (snd munged)) default_volumes in
              Return (mkComposition name repo preserve_ports project_name silent path
                        compose (serialize compose) fileno [])
          end
      end
  end.

End Commands.

Arguments in_sync {World} serialize st.

(** ** More examples *)

(** A stand-in for the [!r] conversion: the string between single quotes. *)
Definition example_repr (s : string) : string := "'" ++ s ++ "'".

(** A stand-in for [int]: decimal digits, followed by white space only. *)
Fixpoint digits_value (acc : Z) (s : string) : option Z :=
  match s with
  | EmptyString => Some acc
  | String c s' =>
      let n := nat_of_ascii c in
      if ((48 <=? n) && (n <=? 57))%nat
      then digits_value (10 * acc + Z.of_nat (n - 48)) s'
      else if blank s then Some acc else None
  end.

Definition example_int (s : string) : option Z :=
  if blank s then None else digits_value 0 s.

Definition newline : string := String (ascii_of_nat 10) EmptyString.

(** A runtime that answers every command with a port mapping. *)
Definition example_port_docker
    (argv : list string) (stdin : option string) (content : string) (w : Z)
  : (Z * string) * Z :=
  ((0, "0.0.0.0" ++ ":" ++ ("49153" ++ newline)), w + 1).

(** An [acquire] that fails. *)
Definition example_failing_acquire (deps : DependencySet) (w : Z) : option exn * Z :=
  (Some (PyException "RuntimeError" "cannot acquire"), w + 7).

(** A composition with two rendered services, one of them on a moving tag. *)
Definition rendered_postgres : ServiceConfig :=
  set_ports (Some [PortStr "5432:5432"]) postgres_config.

Definition rendered_materialized : ServiceConfig :=
  set_ports (Some []) (set_image (Some "materialize/materialized:latest") empty_config).

Definition two_services_spec : Specification :=
  mkSpecification "3.7"
    (<["materialized" := rendered_materialized]> {["postgres" := rendered_postgres]})
    default_volumes.

Definition two_services_state : state Z :=
  mkState (mkComposition "demo" example_repo false None true "/demo" two_services_spec
             (example_dump two_services_spec) 3 []) 100.

(** [repo.compositions] with the one composition. *)
Definition example_compositions : gmap string string := {["demo" := "/demo"]}.

(** A body that runs [rest] once the inner scope is left. *)
Definition returning : Py (state Z) unit := fun st => (Return tt, st).

(** * Properties *)

(** ** Loops over the services *)

Section MungerProperties.

Context (r : Repository) (preserve : bool) (uid gid : N).



(** A loop that returns processed every service, in place. *)
Lemma for_services_return {A} (body : string -> Py ServiceConfig A) svcs l svcs' :
  for_services body svcs = (Return l, svcs') ->
  svcs' = map (after body) svcs /\ Forall (succeeds body) svcs.
Proof.
  revert l svcs'. induction svcs as [|[n c] rest IH]; intros l svcs' H; simpl in H.
  - injection H as <- <-. split; [reflexivity | constructor].
  - destruct (body n c) as [[a|e0] c'] eqn:Hb; [|discriminate].
    destruct (for_services body rest) as [[l1|e1] rest'] eqn:Hr; [|discriminate].
    injection H as <- <-.
    destruct (IH _ _ eq_refl) as [-> Hall]. split.
    + cbn [map]. f_equal. unfold after; cbn [fst snd]. now rewrite Hb.
    + constructor; auto. unfold succeeds; cbn [fst snd]. now rewrite Hb.
Qed.

(** ** The first loop, on one service *)

Lemma munge_service_unfold name config :
  munge_service r preserve uid gid name config =
  match mzbuild config with
  | Some m =>
      if decide (m ∈ images r) then normalise r preserve uid gid name [m] config
      else (Raise (UnknownBuildTarget m), config)
  | None => normalise r preserve uid gid name [] config
  end.
Proof.
  unfold munge_service, bind, modify, ret, remember_mzbuild, check_ports, normalise.
  destruct (mzbuild config) as [m|].
  - destruct (decide (m ∈ images r)) as [Hin|Hnin]; [|reflexivity].
    destruct (munge_ports _ _ _) as [ps [err|]]; reflexivity.
  - destruct (munge_ports _ _ _) as [ps [err|]]; reflexivity.
Qed.

Lemma propagate_user_mzbuild config :
  mzbuild (propagate_user uid gid config) = mzbuild config.
Proof. unfold propagate_user. now destruct (propagate_uid_gid config) as [[|]|]. Qed.

Lemma propagate_user_image config :
  image (propagate_user uid gid config) = image config.
Proof. unfold propagate_user. now destruct (propagate_uid_gid config) as [[|]|]. Qed.

Lemma propagate_user_ports config :
  ports (propagate_user uid gid config) = ports config.
Proof. unfold propagate_user. now destruct (propagate_uid_gid config) as [[|]|]. Qed.

Lemma propagate_user_allow config :
  allow_host_ports (propagate_user uid gid config) = allow_host_ports config.
Proof. unfold propagate_user. now destruct (propagate_uid_gid config) as [[|]|]. Qed.

Lemma inject_coverage_mzbuild name config :
  mzbuild (inject_coverage name config) = mzbuild config.
Proof.
  unfold inject_coverage.
  destruct (decide _); destruct (replace_llvm_profile_file _ _); reflexivity.
Qed.

Lemma inject_coverage_image name config :
  image (inject_coverage name config) = image config.
Proof.
  unfold inject_coverage.
  destruct (decide _); destruct (replace_llvm_profile_file _ _); reflexivity.
Qed.

Lemma inject_coverage_ports name config :
  ports (inject_coverage name config) = ports config.
Proof.
  unfold inject_coverage.
  destruct (decide _); destruct (replace_llvm_profile_file _ _); reflexivity.
Qed.

Lemma inject_coverage_allow name config :
  allow_host_ports (inject_coverage name config) = allow_host_ports config.
Proof.
  unfold inject_coverage.
  destruct (decide _); destruct (replace_llvm_profile_file _ _); reflexivity.
Qed.

Lemma normalise_keeps_references name imgs config :
  mzbuild (snd (normalise r preserve uid gid name imgs config)) = mzbuild config /\
  image (snd (normalise r preserve uid gid name imgs config)) = image config.
Proof.
  unfold normalise.
  destruct (snd (munge_ports _ _ _)) as [e|]; simpl.
  - now rewrite propagate_user_mzbuild, propagate_user_image.
  - destruct (coverage r); simpl;
      rewrite ?inject_coverage_mzbuild, ?inject_coverage_image; simpl;
      now rewrite propagate_user_mzbuild, propagate_user_image.
Qed.

(** The first loop neither resolves nor drops a build reference. *)
Lemma munge_service_keeps_references name config :
  mzbuild (snd (munge_service r preserve uid gid name config)) = mzbuild config /\
  image (snd (munge_service r preserve uid gid name config)) = image config.
Proof.
  rewrite munge_service_unfold.
  destruct (mzbuild config) as [m|] eqn:Hm.
  - destruct (decide (m ∈ images r)).
    + rewrite <- Hm. apply normalise_keeps_references.
    + now simpl.
  - rewrite <- Hm. apply normalise_keeps_references.
Qed.



(** The images a service adds to [images]: its build reference, if any. *)
Lemma munge_service_images name config imgs :
  fst (munge_service r preserve uid gid name config) = Return imgs ->
  imgs = option_list (mzbuild config).
Proof.
  rewrite munge_service_unfold. unfold normalise.
  destruct (mzbuild config) as [m|]; simpl.
  - destruct (decide (m ∈ images r)) as [Hin|Hnin]; [|discriminate].
    destruct (snd (munge_ports _ _ _)); simpl; congruence.
  - destruct (snd (munge_ports _ _ _)); simpl; congruence.
Qed.

Lemma for_services_images svcs imgs svcs' :
  for_services (munge_service r preserve uid gid) svcs = (Return imgs, svcs') ->
  concat imgs = omap (fun entry => mzbuild (snd entry)) svcs.
Proof.
  revert imgs svcs'. induction svcs as [|[n c] rest IH]; intros imgs svcs' H.
  - simpl in H. now injection H as <- <-.
  - cbn [for_services] in H.
    destruct (munge_service r preserve uid gid n c) as [[a|e0] c'] eqn:Hb; [|discriminate].
    destruct (for_services (munge_service r preserve uid gid) rest)
      as [[l1|e1] rest'] eqn:Hr; [|discriminate].
    injection H as <- <-.
    assert (Ha : a = option_list (mzbuild c)).
    { apply (munge_service_images n). now rewrite Hb. }
    cbn [concat omap list_omap snd]. rewrite (IH _ _ eq_refl), Ha.
    now destruct (mzbuild c).
Qed.

(** ** The second loop, on one service *)


Lemma substitute_image_return deps config :
  is_Return (fst (substitute_image deps config)) = true ->
  mzbuild (snd (substitute_image deps config)) = None /\
  match mzbuild config with
  | Some m =>
      exists spec, deps !! m = Some spec /\
                   image (snd (substitute_image deps config)) = Some spec
  | None => image (snd (substitute_image deps config)) = image config
  end.
Proof.
  unfold substitute_image.
  destruct (mzbuild config) as [m|] eqn:Hm.
  - destruct (deps !! m) as [spec|]; [|discriminate].
    intros _. split; [reflexivity|]. now exists spec.
  - intros _. now split.
Qed.



(** ** Build references after a successful munge *)

(** C6 (as amended).  After a successful munge no config retains an
    [mzbuild] key, and every service that carried a build reference has its
    [image] set to what the returned dependency set holds for that name; a
    service without a build reference keeps the [image] it had, present or
    absent.  The dependency set is the resolver's answer for the build
    references of the services, in their order. *)
Theorem munge_resolves_build_references svcs deps svcs' :
  _munge_services r preserve uid gid svcs = (Return deps, svcs') ->
  deps = resolve_dependencies r (omap (fun entry => mzbuild (snd entry)) svcs) /\
  Forall2 (fun before rendered =>
             fst rendered = fst before /\
             mzbuild (snd rendered) = None /\
             match mzbuild (snd before) with
             | Some m =>
                 exists spec, deps !! m = Some spec /\
                              image (snd rendered) = Some spec
             | None => image (snd rendered) = image (snd before)
             end) svcs svcs'.
Proof.
  unfold _munge_services, bind, ret. intros H.
  destruct (for_services (munge_service r preserve uid gid) svcs)
    as [[imgs|e1] svcs1] eqn:H1; [|discriminate].
  destruct (for_services _ svcs1) as [[l|e2] svcs2] eqn:H2; [|discriminate].
  injection H as <- <-.
  rewrite (for_services_images _ _ _ H1). split; [reflexivity|].
  rewrite <- (for_services_images _ _ _ H1).
  destruct (for_services_return _ _ _ _ H1) as [-> _].
  destruct (for_services_return _ _ _ _ H2) as [-> Hall].
  clear H1 H2. induction svcs as [|[n c] rest IH]; cbn [map]; [constructor|].
  inversion Hall as [|x xs Hx Hxs]; subst. constructor; [|now apply IH].
  unfold succeeds, after in Hx |- *; cbn [fst snd] in Hx |- *.
  destruct (munge_service_keeps_references n c) as [Hm Hi].
  destruct (substitute_image_return _ _ Hx) as [Hnone Himg].
  split; [reflexivity|]. split; [exact Hnone|].
  rewrite Hm in Himg. destruct (mzbuild c) as [m|]; [exact Himg|].
  now rewrite Himg.
Qed.

(** ** A munge that aborts *)




(** The two ways a service fails validation. *)
Lemma unknown_build_target_fails name config m :
  mzbuild config = Some m -> m ∉ images r ->
  munge_service r preserve uid gid name config = (Raise (UnknownBuildTarget m), config).
Proof.
  intros Hm Hnin. rewrite munge_service_unfold, Hm.
  now destruct (decide (m ∈ images r)).
Qed.


(** ** The host-port policy *)

Lemma munge_ports_disallowed ps i p :
  ps !! i = Some p -> host_bound p = true ->
  snd (munge_ports preserve false ps) = Some DisallowedHostPort.
Proof.
  revert i. induction ps as [|q rest IH]; intros i Hi Hp; [discriminate|].
  cbn [munge_ports].
  destruct i as [|i]; cbn in Hi.
  - injection Hi as ->. rewrite Hp. cbn [negb andb].
    rewrite andb_false_r. reflexivity.
  - specialize (IH i Hi Hp).
    destruct (preserve && negb (host_bound q)).
    + destruct (munge_ports preserve false rest); exact IH.
    + destruct (host_bound q && negb false); [reflexivity|].
      destruct (munge_ports preserve false rest); exact IH.
Qed.

Lemma munge_ports_allowed ps :
  snd (munge_ports preserve true ps) = None /\
  forall i p, ps !! i = Some p -> host_bound p = true ->
              fst (munge_ports preserve true ps) !! i = Some p.
Proof.
  induction ps as [|q rest [IHe IHp]]; [split; [reflexivity | discriminate]|].
  cbn [munge_ports]. rewrite andb_false_r.
  destruct (munge_ports preserve true rest) as [rest' err]; cbn [fst snd] in *.
  destruct (preserve && negb (host_bound q)) eqn:Hq; cbn [fst snd].
  - split; [exact IHe|]. intros [|i] p Hi Hp; cbn in Hi |- *.
    + injection Hi as ->. rewrite Hp, andb_false_r in Hq. discriminate.
    + now apply IHp.
  - split; [exact IHe|]. intros [|i] p Hi Hp; cbn in Hi |- *.
    + exact Hi.
    + now apply IHp.
Qed.

(** The munge of one service, step by step. *)
Lemma munge_singleton name config :
  _munge_services r preserve uid gid [(name, config)] =
  match munge_service r preserve uid gid name config with
  | (Raise e, c1) => (Raise e, [(name, c1)])
  | (Return imgs, c1) =>
      let deps := resolve_dependencies r (imgs ++ [])%list in
      match substitute_image deps c1 with
      | (Raise e, c2) => (Raise e, [(name, c2)])
      | (Return _, c2) => (Return deps, [(name, c2)])
      end
  end.
Proof.
  unfold _munge_services, bind, ret. cbn [for_services].
  destruct (munge_service r preserve uid gid name config) as [[imgs|e] c1]; [|reflexivity].
  cbn [concat for_services].
  destruct (substitute_image _ c1) as [[u|e] c2]; reflexivity.
Qed.

(** C4 (as amended).  Take a service config whose build reference, if it
    has one, names a known image that the dependency set resolves, and which
    declares a host-bound port.  Unless [allow_host_ports] is true, munging
    it fails with the disallowed-host-port error.  With [allow_host_ports]
    set to true, munging it succeeds, the rendered config has the port entry
    as it was written, at its place, and no [allow_host_ports] key. *)
Theorem host_port_policy name config ps i p :
  ports config = Some ps ->
  ps !! i = Some p ->
  host_bound p = true ->
  (forall m, mzbuild config = Some m ->
             m ∈ images r /\ is_Some (resolve_dependencies r [m] !! m)) ->
  (allow_host_ports config <> Some true ->
   fst (_munge_services r preserve uid gid [(name, config)]) = Raise DisallowedHostPort) /\
  (exists deps rendered ps',
      _munge_services r preserve uid gid [(name, set_allow_host_ports (Some true) config)]
      = (Return deps, [(name, rendered)]) /\
      allow_host_ports rendered = None /\
      ports rendered = Some ps' /\
      ps' !! i = Some p).
Proof.
  intros Hps Hi Hp Hknown. split.
  - intros Hallow. rewrite munge_singleton, munge_service_unfold.
    assert (Hn : forall imgs,
               fst (normalise r preserve uid gid name imgs config)
               = Raise DisallowedHostPort).
    { intros imgs. unfold normalise. cbv zeta.
      rewrite propagate_user_allow, propagate_user_ports, Hps.
      cbn [default from_option id].
      replace (default false (allow_host_ports config)) with false
        by (destruct (allow_host_ports config) as [[|]|]; cbn; congruence).
      now rewrite (munge_ports_disallowed ps i p Hi Hp). }
    destruct (mzbuild config) as [m|] eqn:Hm.
    + destruct (Hknown m eq_refl) as [Hin _].
      destruct (decide (m ∈ images r)) as [_|Hnin]; [|contradiction].
      specialize (Hn [m]).
      destruct (normalise r preserve uid gid name [m] config) as [[a|e] c1];
        cbn in Hn; [discriminate|].
      cbn. congruence.
    + specialize (Hn []).
      destruct (normalise r preserve uid gid name [] config) as [[a|e] c1];
        cbn in Hn; [discriminate|].
      cbn. congruence.
  - rewrite munge_singleton, munge_service_unfold.
    set (config' := set_allow_host_ports (Some true) config).
    destruct (munge_ports_allowed ps) as [Hnone Hkeep].
    assert (Hn : forall imgs, exists c1,
               normalise r preserve uid gid name imgs config' = (Return imgs, c1) /\
               mzbuild c1 = mzbuild config /\
               allow_host_ports c1 = None /\
               ports c1 = Some (fst (munge_ports preserve true ps))).
    { intros imgs. unfold normalise. cbv zeta.
      rewrite propagate_user_allow, propagate_user_ports. cbn [config' set_allow_host_ports
        allow_host_ports ports default from_option id].
      rewrite Hps. cbn [default from_option id]. rewrite Hnone.
      eexists. split; [reflexivity|].
      destruct (coverage r);
        rewrite ?inject_coverage_mzbuild, ?inject_coverage_allow, ?inject_coverage_ports;
        cbn; rewrite propagate_user_mzbuild; auto. }
    change (mzbuild config') with (mzbuild config).
    destruct (mzbuild config) as [m|] eqn:Hm.
    + destruct (Hknown m eq_refl) as [Hin [spec Hspec]].
      destruct (decide (m ∈ images r)) as [_|Hnin]; [|contradiction].
      destruct (Hn [m]) as (c1 & -> & Hm1 & Ha1 & Hp1).
      cbn [app]. unfold substitute_image. rewrite Hm1, Hspec.
      eexists _, _, _. split; [reflexivity|]. cbn.
      split; [exact Ha1|]. split; [exact Hp1|]. now apply Hkeep.
    + destruct (Hn []) as (c1 & -> & Hm1 & Ha1 & Hp1).
      cbn [app]. unfold substitute_image. rewrite Hm1.
      eexists _, _, _. split; [reflexivity|].
      split; [exact Ha1|]. split; [exact Hp1|]. now apply Hkeep.
Qed.

(** ** Coverage injection *)









(** In coverage mode the loop body ends with the injection, applied to a
    config that still has the volumes and environment it came with. *)
Lemma munge_service_injects name config imgs :
  coverage r = true ->
  fst (munge_service r preserve uid gid name config) = Return imgs ->
  exists c3,
    snd (munge_service r preserve uid gid name config) = inject_coverage name c3 /\
    volumes c3 = volumes config /\
    environment c3 = environment config.
Proof.
  intros Hcov. rewrite munge_service_unfold.
  assert (Hn : forall l, fst (normalise r preserve uid gid name l config) = Return imgs ->
               exists c3, snd (normalise r preserve uid gid name l config)
                          = inject_coverage name c3 /\
                          volumes c3 = volumes config /\
                          environment c3 = environment config).
  { intros l. unfold normalise. cbv zeta. rewrite Hcov.
    destruct (snd (munge_ports _ _ _)); [discriminate|]. intros _.
    eexists. split; [reflexivity|]. cbn.
    unfold propagate_user. now destruct (propagate_uid_gid config) as [[|]|]. }
  destruct (mzbuild config) as [m|].
  - destruct (decide (m ∈ images r)) as [Hin|Hnin]; [apply Hn | discriminate].
  - apply Hn.
Qed.
End MungerProperties.

(** ** The insertion-ordered dict of test results *)

Lemma dict_get_set {V} key (value : V) d :
  dict_get key (dict_set key value d) = Some value.
Proof.
  induction d as [|[k v] rest IH]; cbn.
  - now rewrite String.eqb_refl.
  - destruct (String.eqb k key) eqn:Hk; cbn; now rewrite Hk.
Qed.


Lemma dict_mem_set {V} key (value : V) d :
  dict_mem key (dict_set key value d) = true.
Proof. unfold dict_mem. now rewrite dict_get_set. Qed.

Section EngineProperties.

Context (World : Type).
Context (docker : list string -> option string -> string -> World -> (Z * string) * World).
Context (acquire : DependencySet -> World -> option exn * World).
Context (now : World -> Z).
Context (serialize : Specification -> string).
Context (uid gid : N).


(** ** Override *)

(** The [finally] block puts the snapshot back and writes it out. *)
Lemma override_exit_restores old_compose (st : state World) :
  exists st',
    override_exit World serialize old_compose st = (Return tt, st') /\
    compose (self st') = old_compose /\
    file (self st') = serialize old_compose /\
    test_results (self st') = test_results (self st) /\
    world st' = world st.
Proof. eexists. split; [reflexivity|]. now cbn. Qed.

(** C1.  Once the scoped body of an override has been entered, whatever way
    it exits -- raising [e] or returning -- the override exits the same way,
    and then the live specification is the one from immediately before the
    override call and the file holds its serialization.  In particular a
    body that raises leaves the serialized specification as it was before
    the call. *)
Theorem override_restores svcs body (st st_in st_out : state World) o :
  override_enter World docker acquire serialize uid gid svcs st = (Return tt, st_in) ->
  body st_in = (o, st_out) ->
  exists st',
    override World docker acquire serialize uid gid svcs body st = (o, st') /\
    compose (self st') = compose (self st) /\
    file (self st') = serialize (compose (self st)) /\
    serialize (compose (self st')) = serialize (compose (self st)).
Proof.
  intros Henter Hbody.
  destruct (override_exit_restores (compose (self st)) st_out)
    as (st' & Hexit & Hc & Hf & _).
  exists st'. unfold override, bind, try_finally.
  rewrite Henter, Hbody, Hexit.
  split; [reflexivity|]. split; [exact Hc|]. split; [exact Hf|]. now rewrite Hc.
Qed.

(** ** The test-case harness *)

(** C7 (as amended).  In a test-case scope under a fresh name, a body that
    raises an [Exception] or returns makes the scope return normally, and a
    result is recorded under the name: its error is [str(e)] for a raised
    [e] (not none, but empty when the exception has no message) and none
    for a normal return; its duration is the difference of the two clock
    readings, which is non-negative whenever the clock did not go back. *)
Theorem test_case_records name body (st st1 : state World) o :
  dict_mem name (test_results (self st)) = false ->
  body st = (o, st1) ->
  (forall e, o = Raise e -> is_Exception e = true) ->
  exists result st',
    test_case World now name body st = (Return tt, st') /\
    dict_get name (test_results (self st')) = Some result /\
    error result = match o with
                   | Return _ => None
                   | Raise e => Some (str_exn e)
                   end /\
    duration result = now (world st1) - now (world st) /\
    (now (world st) <= now (world st1) -> 0 <= duration result).
Proof.
  intros Hfresh Hbody Hexc. unfold test_case. rewrite Hfresh, Hbody.
  destruct o as [u|e].
  - eexists _, _. split; [reflexivity|]. cbn.
    rewrite dict_get_set. repeat split. cbn. lia.
  - rewrite (Hexc e eq_refl).
    eexists _, _. split; [reflexivity|]. cbn.
    rewrite dict_get_set. repeat split. cbn. lia.
Qed.


(** C10.  In a test-case scope under a fresh name, a body that raises a
    [BaseException] that is not an [Exception] makes the scope raise that
    same exception, and the scope records nothing: the composition is left
    as the body left it, so if the body did not touch the test results there
    is no result under the name. *)
Theorem test_case_propagates_base_exception name body (st st1 : state World) e :
  dict_mem name (test_results (self st)) = false ->
  body st = (Raise e, st1) ->
  is_Exception e = false ->
  test_case World now name body st = (Raise e, st1) /\
  (test_results (self st1) = test_results (self st) ->
   dict_mem name (test_results (self st1)) = false).
Proof.
  intros Hfresh Hbody He. unfold test_case. rewrite Hfresh, Hbody, He.
  split; [reflexivity|]. now intros ->.
Qed.


(** ** Unknown services in an override *)

(** Installing a service puts it in the live map, known before or not. *)
Lemma install_lookup n config d :
  services (install [(n, config)] d) !! n = Some config.
Proof. unfold install. cbn. apply lookup_insert_eq. Qed.

(** ** Persistent mode of [up] *)

(** A persistent [up], written out: the runtime is started on the overridden
    specification; the restore comes after the call and only if it returned. *)
Lemma up_persistent_unfold names detach wait (st : state World) :
  up World docker serialize names detach wait true st =
  let d := compose (self st) in
  let live := persistent_spec d in
  let c1 := set_file (serialize live) (set_compose live (self st)) in
  let '((status, out), w) :=
    docker (compose_argv c1 (up_args names detach wait)) None (serialize live)
           (world st) in
  if negb (status =? 0)
  then (Raise (RuntimeInvocationFailed status), mkState c1 w)
  else (Return tt, mkState (set_file (serialize d) (set_compose d c1)) w).
Proof.
  unfold up, bind, modify, _write_compose, invoke, on_self, ret. cbn.
  destruct (docker _ _ _ _) as [[status out] w].
  destruct (status =? 0); reflexivity.
Qed.

(** When the [up] command succeeds, the original specification is back. *)
Lemma up_persistent_success names detach wait (st : state World) out w :
  docker (compose_argv
            (set_file (serialize (persistent_spec (compose (self st))))
               (set_compose (persistent_spec (compose (self st))) (self st)))
            (up_args names detach wait))
         None (serialize (persistent_spec (compose (self st)))) (world st)
  = ((0, out), w) ->
  exists st',
    up World docker serialize names detach wait true st = (Return tt, st') /\
    compose (self st') = compose (self st) /\
    file (self st') = serialize (compose (self st)).
Proof.
  intros H. rewrite up_persistent_unfold. cbv zeta. rewrite H. cbn.
  eexists. split; [reflexivity|]. now split.
Qed.

(** When the [up] command fails, [up] raises before its restore: the live
    specification and the file keep the overridden services. *)
Lemma up_persistent_failure names detach wait (st : state World) status out w :
  docker (compose_argv
            (set_file (serialize (persistent_spec (compose (self st))))
               (set_compose (persistent_spec (compose (self st))) (self st)))
            (up_args names detach wait))
         None (serialize (persistent_spec (compose (self st)))) (world st)
  = ((status, out), w) ->
  status <> 0 ->
  exists st',
    up World docker serialize names detach wait true st
    = (Raise (RuntimeInvocationFailed status), st') /\
    compose (self st') = persistent_spec (compose (self st)) /\
    file (self st') = serialize (persistent_spec (compose (self st))).
Proof.
  intros H Hne. rewrite up_persistent_unfold. cbv zeta. rewrite H.
  apply Z.eqb_neq in Hne. rewrite Hne. cbn.
  eexists. split; [reflexivity|]. now split.
Qed.
End EngineProperties.

(** * The properties on concrete compositions *)

(** ** Munger *)



(** C4, as stated, fails: a config with a host-bound port whose build
    reference is unknown fails with the unknown-image error, not with the
    disallowed-host-port error, and still fails when [allow_host_ports] is
    true. *)
Lemma host_port_policy_unknown_build_target :
  let config := set_ports (Some [PortStr "8080:80"])
                  (set_mzbuild (Some "ghost") empty_config) in
  fst (_munge_services example_repo false 1000 1000 [("web", config)])
  = Raise (UnknownBuildTarget "ghost") /\
  UnknownBuildTarget "ghost" <> DisallowedHostPort /\
  fst (_munge_services example_repo false 1000 1000
         [("web", set_allow_host_ports (Some true) config)])
  = Raise (UnknownBuildTarget "ghost").
Proof.
  cbv zeta. split; [reflexivity|]. split; [discriminate | reflexivity].
Qed.

Lemma host_port_policy_witness :
  let config := set_ports (Some [PortInt 6875; PortStr "5432:5432"])
                  (set_mzbuild (Some "materialized") empty_config) in
  ports config = Some [PortInt 6875; PortStr "5432:5432"] /\
  [PortInt 6875; PortStr "5432:5432"] !! 1%nat = Some (PortStr "5432:5432") /\
  host_bound (PortStr "5432:5432") = true /\
  (forall m, mzbuild config = Some m ->
             m ∈ images example_repo /\
             is_Some (resolve_dependencies example_repo [m] !! m)) /\
  (allow_host_ports config <> Some true ->
   fst (_munge_services example_repo true 1000 1000 [("materialized", config)])
   = Raise DisallowedHostPort) /\
  (exists deps rendered ps',
      _munge_services example_repo true 1000 1000
        [("materialized", set_allow_host_ports (Some true) config)]
      = (Return deps, [("materialized", rendered)]) /\
      allow_host_ports rendered = None /\
      ports rendered = Some ps' /\
      ps' !! 1%nat = Some (PortStr "5432:5432")).
Proof.
  cbv zeta.
  assert (H4 : forall m,
             mzbuild (set_ports (Some [PortInt 6875; PortStr "5432:5432"])
                        (set_mzbuild (Some "materialized") empty_config)) = Some m ->
             m ∈ images example_repo /\
             is_Some (resolve_dependencies example_repo [m] !! m)).
  { intros m [= <-]. split.
    - cbn. apply elem_of_singleton. reflexivity.
    - eexists. vm_compute. reflexivity. }
  split; [reflexivity|]. split; [reflexivity|]. split; [reflexivity|].
  split; [exact H4|].
  exact (host_port_policy example_repo true 1000 1000 "materialized"
           (set_ports (Some [PortInt 6875; PortStr "5432:5432"])
              (set_mzbuild (Some "materialized") empty_config))
           [PortInt 6875; PortStr "5432:5432"] 1%nat (PortStr "5432:5432")
           eq_refl eq_refl eq_refl H4).
Defined.



(** C6, as stated, fails: a service that comes with neither a build reference
    nor an image is munged successfully and still has neither. *)
Lemma munge_leaves_service_without_image :
  exists deps rendered,
    _munge_services example_repo false 1000 1000 [("scratch", empty_config)]
    = (Return deps, [("scratch", rendered)]) /\
    mzbuild rendered = None /\
    image rendered = None.
Proof.
  exists (example_resolve []), (set_ports (Some []) empty_config).
  split; [vm_compute; reflexivity|]. split; reflexivity.
Qed.

Lemma munge_resolves_build_references_witness :
  let svcs := [("materialized", set_mzbuild (Some "materialized") empty_config);
               ("postgres", postgres_config)] in
  let deps := example_resolve ["materialized"] in
  let svcs' := snd (_munge_services example_repo false 1000 1000 svcs) in
  _munge_services example_repo false 1000 1000 svcs = (Return deps, svcs') /\
  deps = resolve_dependencies example_repo
           (omap (fun entry => mzbuild (snd entry)) svcs) /\
  Forall2 (fun before rendered =>
             fst rendered = fst before /\
             mzbuild (snd rendered) = None /\
             match mzbuild (snd before) with
             | Some m =>
                 exists spec, deps !! m = Some spec /\
                              image (snd rendered) = Some spec
             | None => image (snd rendered) = image (snd before)
             end) svcs svcs'.
Proof.
  cbv zeta.
  assert (H : _munge_services example_repo false 1000 1000
                [("materialized", set_mzbuild (Some "materialized") empty_config);
                 ("postgres", postgres_config)]
              = (Return (example_resolve ["materialized"]),
                 snd (_munge_services example_repo false 1000 1000
                        [("materialized", set_mzbuild (Some "materialized") empty_config);
                         ("postgres", postgres_config)]))).
  { vm_compute. reflexivity. }
  split; [exact H|].
  exact (munge_resolves_build_references example_repo false 1000 1000 _ _ _ H).
Defined.

(** ** Engine *)

(** C1 at work: an override of the only service whose body fails an assert. *)
Lemma override_restores_witness :
  let svcs := [mkService "postgres" (set_image (Some "postgres:15") empty_config)] in
  let failure := PyException "AssertionError" "" in
  let st_in := snd (override_enter Z (example_docker 0) example_acquire example_dump
                      1000 1000 svcs example_state) in
  let st_out := snd (failing_assert st_in) in
  override_enter Z (example_docker 0) example_acquire example_dump 1000 1000
    svcs example_state = (Return tt, st_in) /\
  failing_assert st_in = (Raise failure, st_out) /\
  exists st',
    override Z (example_docker 0) example_acquire example_dump 1000 1000
      svcs failing_assert example_state = (Raise failure, st') /\
    compose (self st') = compose (self example_state) /\
    file (self st') = example_dump (compose (self example_state)) /\
    example_dump (compose (self st')) = example_dump (compose (self example_state)).
Proof.
  cbv zeta.
  assert (H1 : override_enter Z (example_docker 0) example_acquire example_dump 1000 1000
                 [mkService "postgres" (set_image (Some "postgres:15") empty_config)]
                 example_state
               = (Return tt,
                  snd (override_enter Z (example_docker 0) example_acquire example_dump
                         1000 1000
                         [mkService "postgres" (set_image (Some "postgres:15") empty_config)]
                         example_state))).
  { vm_compute. reflexivity. }
  split; [exact H1|]. split; [reflexivity|].
  exact (override_restores Z (example_docker 0) example_acquire example_dump 1000 1000
           _ failing_assert _ _ _ _ H1 eq_refl).
Defined.

(** C2: the code does not do what the claim says.  Overriding with a service
    the composition does not have raises nothing: the scope is entered with
    the new service in the live specification and in the file, and the whole
    override returns normally. *)
Theorem override_unknown_service_is_installed :
  let redis := mkService "redis" (set_image (Some "redis:7") empty_config) in
  let entered := override_enter Z (example_docker 0) example_acquire example_dump
                   1000 1000 [redis] example_state in
  services (compose (self example_state)) !! "redis" = None /\
  fst entered = Return tt /\
  services (compose (self (snd entered))) !! "redis"
  = Some (set_ports (Some []) (set_image (Some "redis:7") empty_config)) /\
  file (self (snd entered))
  = "redis image=redis:7 entrypoint=;postgres image=postgres:14 entrypoint=" /\
  fst (override Z (example_docker 0) example_acquire example_dump 1000 1000
         [redis] passing example_state) = Return tt.
Proof. cbv zeta. repeat split; vm_compute; reflexivity. Qed.

(** C7, as stated, fails: a body that fails a bare [assert] is recorded with
    the empty string as its error, and, the clock having been set back
    meanwhile, with a negative duration. *)
Lemma test_case_records_empty_description :
  exists st',
    test_case Z example_now "smoke" failing_assert example_state = (Return tt, st') /\
    dict_get "smoke" (test_results (self st')) = Some (mkTestResult (-5) (Some "")).
Proof. eexists. split; reflexivity. Qed.

Lemma test_case_records_witness :
  let failure := UIError "query returned no rows" None in
  let st1 := snd (failing_query example_state) in
  dict_mem "smoke" (test_results (self example_state)) = false /\
  failing_query example_state = (Raise failure, st1) /\
  (forall e, Raise (A := unit) failure = Raise e -> is_Exception e = true) /\
  exists result st',
    test_case Z example_now "smoke" failing_query example_state = (Return tt, st') /\
    dict_get "smoke" (test_results (self st')) = Some result /\
    error result = Some "query returned no rows" /\
    duration result = 103 - 100 /\
    (100 <= 103 -> 0 <= duration result).
Proof.
  cbv zeta.
  assert (H3 : forall e, Raise (A := unit) (UIError "query returned no rows" None) = Raise e ->
                         is_Exception e = true)
    by (intros e [= <-]; reflexivity).
  split; [reflexivity|]. split; [reflexivity|]. split; [exact H3|].
  exact (test_case_records Z example_now "smoke" failing_query example_state _ _
           eq_refl eq_refl H3).
Defined.



(** C10 at work: a test case interrupted from the keyboard. *)
Lemma test_case_propagates_base_exception_witness :
  let interrupt := PyBaseException "KeyboardInterrupt" "" in
  dict_mem "smoke" (test_results (self example_state)) = false /\
  interrupted example_state = (Raise interrupt, example_state) /\
  is_Exception interrupt = false /\
  test_case Z example_now "smoke" interrupted example_state
  = (Raise interrupt, example_state) /\
  (test_results (self example_state) = test_results (self example_state) ->
   dict_mem "smoke" (test_results (self example_state)) = false).
Proof.
  cbv zeta. split; [reflexivity|]. split; [reflexivity|]. split; [reflexivity|].
  exact (test_case_propagates_base_exception Z example_now "smoke" interrupted
           example_state example_state _ eq_refl eq_refl eq_refl).
Defined.

(** C9: the code does not do what the claim says.  When the [up] command of a
    persistent [up] fails, [up] raises and the live specification and the
    file keep the [sleep infinity] entrypoint and the empty command. *)
Theorem up_persistent_failure_not_restored :
  let result := up Z (example_docker 1) example_dump ["postgres"] true true true
                  example_state in
  fst result = Raise (RuntimeInvocationFailed 1) /\
  services (compose (self (snd result))) !! "postgres"
  = Some (make_persistent postgres_config) /\
  file (self (snd result)) = "postgres image=postgres:14 entrypoint=sleep infinity" /\
  file (self example_state) = "postgres image=postgres:14 entrypoint=" /\
  compose (self (snd result)) <> compose (self example_state).
Proof.
  cbv zeta. split; [vm_compute; reflexivity|]. split; [vm_compute; reflexivity|].
  split; [vm_compute; reflexivity|]. split; [vm_compute; reflexivity|].
  intros H. apply (f_equal (fun d => entrypoint <$> services d !! "postgres")) in H.
  vm_compute in H. discriminate.
Qed.

(** * Further properties *)

(** ** What the munger renders *)

Lemma contains_colon_app a b : contains_colon (a ++ ":" ++ b) = true.
Proof.
  induction a as [|c a IH]; [reflexivity|].
  change (contains_colon (String c (a ++ ":" ++ b)) = true).
  cbn [contains_colon]. destruct (Ascii.eqb c ":"); [reflexivity | exact IH].
Qed.

Lemma inject_coverage_fields name config :
  let c' := inject_coverage name config in
  propagate_uid_gid c' = propagate_uid_gid config /\
  user c' = user config /\
  entrypoint c' = entrypoint config /\
  command c' = command config /\
  extra c' = extra config.
Proof.
  unfold inject_coverage.
  destruct (decide _); destruct (replace_llvm_profile_file _ _); cbn; auto.
Qed.

Lemma substitute_image_fields deps config :
  let c' := snd (substitute_image deps config) in
  propagate_uid_gid c' = propagate_uid_gid config /\
  allow_host_ports c' = allow_host_ports config /\
  ports c' = ports config /\
  user c' = user config /\
  entrypoint c' = entrypoint config /\
  command c' = command config /\
  environment c' = environment config /\
  volumes c' = volumes config /\
  extra c' = extra config.
Proof.
  unfold substitute_image.
  destruct (mzbuild config) as [m|]; [destruct (deps !! m)|]; cbn; auto 10.
Qed.

Section MungerRendering.

Context (r : Repository) (preserve : bool) (uid gid : N).

(** The config a service is left with when the first loop returns on it. *)
Lemma munge_service_return name config imgs :
  fst (munge_service r preserve uid gid name config) = Return imgs ->
  let c1 := propagate_user uid gid config in
  let checked := munge_ports preserve (default false (allow_host_ports config))
                   (default [] (ports config)) in
  let c3 := set_allow_host_ports None (set_ports (Some (fst checked)) c1) in
  snd checked = None /\
  (forall m, mzbuild config = Some m -> m ∈ images r) /\
  snd (munge_service r preserve uid gid name config)
  = (if coverage r then inject_coverage name c3 else c3).
Proof.
  rewrite munge_service_unfold. unfold normalise. cbv zeta.
  rewrite propagate_user_allow, propagate_user_ports.
  destruct (mzbuild config) as [m|].
  - destruct (decide (m ∈ images r)) as [Hin|Hnin]; [|discriminate].
    destruct (snd (munge_ports _ _ _)); [discriminate|]. intros _.
    split; [reflexivity|]. split; [|reflexivity]. now intros ? [= <-].
  - destruct (snd (munge_ports _ _ _)); [discriminate|]. intros _.
    split; [reflexivity|]. split; [discriminate | reflexivity].
Qed.

(** X1.  When the first loop returns on a service, the [propagate_uid_gid]
    key is gone, and the [user] of the config is the uid and gid of the host
    user, joined by a colon, if the flag was true; otherwise the [user] is
    the one the config came with. *)
Theorem munge_service_propagates_user name config imgs :
  fst (munge_service r preserve uid gid name config) = Return imgs ->
  propagate_uid_gid (snd (munge_service r preserve uid gid name config)) = None /\
  user (snd (munge_service r preserve uid gid name config))
  = match propagate_uid_gid config with
    | Some true => Some (pretty uid ++ ":" ++ pretty gid)
    | _ => user config
    end.
Proof.
  intros H. destruct (munge_service_return _ _ _ H) as (_ & _ & ->).
  assert (Hp : propagate_uid_gid (propagate_user uid gid config) = None /\
               user (propagate_user uid gid config)
               = match propagate_uid_gid config with
                 | Some true => Some (pretty uid ++ ":" ++ pretty gid)
                 | _ => user config
                 end).
  { unfold propagate_user. now destruct (propagate_uid_gid config) as [[|]|] eqn:E. }
  destruct (coverage r).
  - destruct (inject_coverage_fields name
                (set_allow_host_ports None
                   (set_ports
                      (Some (fst (munge_ports preserve
                                    (default false (allow_host_ports config))
                                    (default [] (ports config)))))
                      (propagate_user uid gid config)))) as (-> & -> & _).
    exact Hp.
  - exact Hp.
Qed.

Lemma munge_service_rendered name config imgs :
  fst (munge_service r preserve uid gid name config) = Return imgs ->
  let c' := snd (munge_service r preserve uid gid name config) in
  propagate_uid_gid c' = None /\ allow_host_ports c' = None /\ is_Some (ports c').
Proof.
  intros H. cbv zeta.
  destruct (munge_service_return _ _ _ H) as (_ & _ & ->).
  assert (Hp : propagate_uid_gid (propagate_user uid gid config) = None)
    by (unfold propagate_user;
        destruct (propagate_uid_gid config) as [[|]|] eqn:E; cbn; auto).
  destruct (coverage r).
  - rewrite inject_coverage_allow, inject_coverage_ports.
    destruct (inject_coverage_fields name
                (set_allow_host_ports None
                   (set_ports
                      (Some (fst (munge_ports preserve
                                    (default false (allow_host_ports config))
                                    (default [] (ports config)))))
                      (propagate_user uid gid config)))) as (-> & _).
    cbn. eauto.
  - cbn. eauto.
Qed.


(** After a successful munge every config is rendered: it has none of the
    extension keys [mzbuild], [propagate_uid_gid] and [allow_host_ports], and
    it has a [ports] key. *)
Lemma munge_renders_every_service svcs deps svcs' :
  _munge_services r preserve uid gid svcs = (Return deps, svcs') ->
  Forall (fun entry => rendered (snd entry)) svcs'.
Proof.
  unfold _munge_services, bind, ret. intros H.
  destruct (for_services (munge_service r preserve uid gid) svcs)
    as [[imgs|e1] svcs1] eqn:H1; [|discriminate].
  destruct (for_services _ svcs1) as [[l|e2] svcs2] eqn:H2; [|discriminate].
  injection H as <- <-.
  destruct (for_services_return _ _ _ _ H1) as [-> Hall1].
  destruct (for_services_return _ _ _ _ H2) as [-> Hall2].
  clear H1 H2. induction svcs as [|[n c] rest IH]; cbn [map]; [constructor|].
  inversion Hall1 as [|x xs Hx Hxs]; subst.
  inversion Hall2 as [|y ys Hy Hys]; subst.
  constructor; [|now apply IH].
  unfold succeeds, after in Hx, Hy |- *; cbn [fst snd] in Hx, Hy |- *.
  destruct (munge_service r preserve uid gid n c) as [[a|e] c1] eqn:Hm;
    [|discriminate].
  assert (Hr := munge_service_rendered n c a). rewrite Hm in Hr.
  destruct (Hr eq_refl) as (Hp & Ha & Hports). cbn [snd] in *.
  destruct (substitute_image_return _ _ Hy) as [Hnone _].
  destruct (substitute_image_fields (resolve_dependencies r (concat imgs)) c1)
    as (Ep & Ea & Eports & _).
  unfold rendered. rewrite Ep, Ea, Eports. auto.
Qed.

(** With [preserve_ports] off the port loop rewrites nothing. *)
Lemma munge_ports_without_preserve allow ps :
  preserve = false -> fst (munge_ports preserve allow ps) = ps.
Proof.
  intros ->. induction ps as [|p rest IH]; [reflexivity|]. cbn [munge_ports andb].
  destruct (host_bound p && negb allow); [reflexivity|].
  destruct (munge_ports false allow rest); cbn in *. now rewrite IH.
Qed.

(** With [preserve_ports] on, a loop that returns has bound every port that
    had no host binding to the host port of the same number. *)
Lemma munge_ports_with_preserve allow ps :
  preserve = true ->
  snd (munge_ports preserve allow ps) = None ->
  Forall2 (fun p p' =>
             p' = if host_bound p then p
                  else PortStr (str_port p ++ ":" ++ str_port p))
          ps (fst (munge_ports preserve allow ps)) /\
  Forall (fun p' => host_bound p' = true) (fst (munge_ports preserve allow ps)).
Proof.
  intros ->. induction ps as [|p rest IH]; [split; constructor|].
  cbn [munge_ports andb]. destruct (host_bound p) eqn:Hp; cbn [negb].
  - destruct allow; cbn [negb andb]; [|discriminate].
    destruct (munge_ports true true rest) as [rest' err]; cbn [fst snd] in *.
    intros He. destruct (IH He) as [H2 Hall]. split; constructor; auto.
    now rewrite Hp.
  - destruct (munge_ports true allow rest) as [rest' err]; cbn [fst snd] in *.
    intros He. destruct (IH He) as [H2 Hall]. split; constructor; auto.
    + now rewrite Hp.
    + unfold host_bound. cbn [str_port]. apply contains_colon_app.
Qed.

(** X2.  Under [preserve_ports], when the first loop returns on a service,
    its ports are the ones it came with, in their order, each one without a
    host binding rewritten to bind the host port of the same number, so that
    every rendered port is host-bound. *)
Theorem munge_service_preserves_ports name config imgs :
  preserve = true ->
  fst (munge_service r preserve uid gid name config) = Return imgs ->
  exists ps',
    ports (snd (munge_service r preserve uid gid name config)) = Some ps' /\
    Forall2 (fun p p' =>
               p' = if host_bound p then p
                    else PortStr (str_port p ++ ":" ++ str_port p))
            (default [] (ports config)) ps' /\
    Forall (fun p' => host_bound p' = true) ps'.
Proof.
  intros Hpre H. destruct (munge_service_return _ _ _ H) as (Hnone & _ & ->).
  eexists. split.
  - destruct (coverage r); rewrite ?inject_coverage_ports; reflexivity.
  - now apply munge_ports_with_preserve.
Qed.

(** X3.  Without [preserve_ports], when the first loop returns on a service,
    its port list is the one it came with (the empty list if it had no
    [ports] key). *)
Theorem munge_service_keeps_ports name config imgs :
  preserve = false ->
  fst (munge_service r preserve uid gid name config) = Return imgs ->
  ports (snd (munge_service r preserve uid gid name config))
  = Some (default [] (ports config)).
Proof.
  intros Hpre H. destruct (munge_service_return _ _ _ H) as (_ & _ & ->).
  destruct (coverage r); rewrite ?inject_coverage_ports; cbn [ports set_ports
    set_allow_host_ports]; now rewrite munge_ports_without_preserve.
Qed.

(** X4.  A rendered config cannot be munged again once it has a host-bound
    port: the [allow_host_ports] flag is gone, so the first loop, having
    returned on a config, raises the disallowed-host-port error on the
    config it left, whenever that one has a port with a host binding (as all
    ports have under [preserve_ports]). *)
Theorem munge_service_again_fails name config imgs ps' i p :
  fst (munge_service r preserve uid gid name config) = Return imgs ->
  ports (snd (munge_service r preserve uid gid name config)) = Some ps' ->
  ps' !! i = Some p ->
  host_bound p = true ->
  fst (munge_service r preserve uid gid name
         (snd (munge_service r preserve uid gid name config)))
  = Raise DisallowedHostPort.
Proof.
  intros H Hps Hi Hp.
  destruct (munge_service_rendered name config imgs H) as (Hflag & Hallow & _).
  destruct (munge_service_keeps_references r preserve uid gid name config) as [Hm _].
  destruct (munge_service_return _ _ _ H) as (_ & Hknown & _).
  set (c' := snd (munge_service r preserve uid gid name config)) in *.
  rewrite munge_service_unfold.
  assert (Hn : forall l, fst (normalise r preserve uid gid name l c')
                         = Raise DisallowedHostPort).
  { intros l. unfold normalise. cbv zeta.
    rewrite propagate_user_allow, propagate_user_ports, Hallow, Hps.
    cbn [default from_option id].
    now rewrite (munge_ports_disallowed preserve ps' i p Hi Hp). }
  rewrite Hm. destruct (mzbuild config) as [m|].
  - destruct (decide (m ∈ images r)) as [_|Hnin]; [apply Hn|].
    now specialize (Hknown m eq_refl).
  - apply Hn.
Qed.

Lemma propagate_user_fields config :
  let c' := propagate_user uid gid config in
  entrypoint c' = entrypoint config /\
  command c' = command config /\
  environment c' = environment config /\
  volumes c' = volumes config /\
  extra c' = extra config.
Proof.
  unfold propagate_user. destruct (propagate_uid_gid config) as [[|]|]; cbn; auto.
Qed.

(** X5.  A successful munge never touches the [entrypoint], the [command] or
    the keys it has no business with, of any service, and without coverage
    mode it leaves [environment] and [volumes] alone as well. *)
Theorem munge_keeps_other_keys svcs deps svcs' :
  _munge_services r preserve uid gid svcs = (Return deps, svcs') ->
  Forall2 (fun before after_ =>
             entrypoint (snd after_) = entrypoint (snd before) /\
             command (snd after_) = command (snd before) /\
             extra (snd after_) = extra (snd before) /\
             (coverage r = false ->
              environment (snd after_) = environment (snd before) /\
              volumes (snd after_) = volumes (snd before)))
          svcs svcs'.
Proof.
  unfold _munge_services, bind, ret. intros H.
  destruct (for_services (munge_service r preserve uid gid) svcs)
    as [[imgs|e1] svcs1] eqn:H1; [|discriminate].
  destruct (for_services _ svcs1) as [[l|e2] svcs2] eqn:H2; [|discriminate].
  injection H as <- <-.
  destruct (for_services_return _ _ _ _ H1) as [-> Hall1].
  destruct (for_services_return _ _ _ _ H2) as [-> _].
  clear H1 H2. induction svcs as [|[n c] rest IH]; cbn [map]; [constructor|].
  inversion Hall1 as [|x xs Hx Hxs]; subst. constructor; [|now apply IH].
  unfold succeeds, after in Hx |- *; cbn [fst snd] in Hx |- *.
  destruct (munge_service r preserve uid gid n c) as [[a|e] c1] eqn:Hm;
    [|discriminate].
  assert (Hr := munge_service_return n c a). rewrite Hm in Hr.
  destruct (Hr eq_refl) as (_ & _ & Hc1). cbn [snd] in *.
  destruct (substitute_image_fields (resolve_dependencies r (concat imgs)) c1)
    as (_ & _ & _ & _ & -> & -> & -> & -> & ->).
  destruct (propagate_user_fields c) as (Ee & Ec & Eenv & Evol & Ex).
  rewrite Hc1. destruct (coverage r).
  - match goal with |- context [inject_coverage n ?c3] =>
      destruct (inject_coverage_fields n c3) as (_ & _ & -> & -> & ->) end.
    cbn. repeat split; auto; discriminate.
  - cbn. repeat split; auto.
Qed.


End MungerRendering.

(** ** Strings: suffixes and segments *)

Lemma append_cons c (a b : string) : String c a ++ b = String c (a ++ b).
Proof. reflexivity. Qed.

Lemma append_nil_r (a : string) : a ++ "" = a.
Proof. induction a as [|c a IH]; [reflexivity|]. now rewrite append_cons, IH. Qed.

Lemma append_assoc (a b c : string) : (a ++ b) ++ c = a ++ (b ++ c).
Proof.
  induction a as [|x a IH]; [reflexivity|]. now rewrite !append_cons, IH.
Qed.

Lemma prefix_spec (p s : string) :
  String.prefix p s = true <-> exists q, s = p ++ q.
Proof.
  revert s. induction p as [|c p IH]; intros s.
  - destruct s; cbn; (split; [intros _; eexists; reflexivity | reflexivity]).
  - destruct s as [|d s]; cbn.
    + split; [discriminate | intros [q Hq]; discriminate].
    + destruct (ascii_dec c d) as [->|Hne].
      * rewrite IH. split; intros [q Hq]; exists q.
        -- now rewrite append_cons, Hq.
        -- rewrite append_cons in Hq. now injection Hq.
      * split; [discriminate|]. intros [q Hq]. rewrite append_cons in Hq.
        injection Hq as Hd _. congruence.
Qed.

Lemma rev_app_spec (a b : string) : String.rev_app a b = String.rev a ++ b.
Proof.
  revert b. induction a as [|c a IH]; intros b; [reflexivity|].
  change (String.rev (String c a)) with (String.rev_app a (String c "")).
  change (String.rev_app (String c a) b) with (String.rev_app a (String c b)).
  rewrite IH, (IH (String c "")), append_assoc. reflexivity.
Qed.

Lemma rev_cons c (a : string) : String.rev (String c a) = String.rev a ++ String c "".
Proof.
  change (String.rev (String c a)) with (String.rev_app a (String c "")).
  apply rev_app_spec.
Qed.

Lemma rev_append (a b : string) : String.rev (a ++ b) = String.rev b ++ String.rev a.
Proof.
  induction a as [|c a IH].
  - change ("" ++ b) with b. change (String.rev "") with "".
    now rewrite append_nil_r.
  - rewrite append_cons, !rev_cons, IH, append_assoc. reflexivity.
Qed.

Lemma rev_rev (a : string) : String.rev (String.rev a) = a.
Proof.
  induction a as [|c a IH]; [reflexivity|].
  rewrite rev_cons, rev_append, IH. reflexivity.
Qed.

(** [s.endswith(p)] holds exactly when [s] is something followed by [p]. *)
Lemma endswith_spec (s p : string) :
  endswith s p = true <-> exists q, s = q ++ p.
Proof.
  unfold endswith. rewrite prefix_spec. split; intros [q Hq].
  - exists (String.rev q).
    rewrite <- (rev_rev s), Hq, rev_append, rev_rev. reflexivity.
  - exists (String.rev q). now rewrite Hq, rev_append.
Qed.

(** X7.  An image counts as variable, and is pulled by [pull_if_variable],
    exactly when its reference ends with [:latest], [:unstable] or
    [:rolling]. *)
Theorem variable_tag_spec img :
  variable_tag img = true <->
  exists repository tag,
    img = repository ++ tag /\
    (tag = ":latest" \/ tag = ":unstable" \/ tag = ":rolling").
Proof.
  unfold variable_tag. cbn [existsb]. rewrite !orb_true_iff, !endswith_spec. split.
  - intros [ [q ->] | [ [q ->] | [ [q ->] | H ] ] ]; [| | |discriminate]; eauto 6.
  - intros (q & tag & -> & [ -> | [ -> | -> ] ]); eauto 6.
Qed.

(** Segments of a string that has no colon, and of one with a colon. *)
Lemma split_colon_plain s : contains_colon s = false -> split_colon s = [s].
Proof.
  induction s as [|c s IH]; cbn; [reflexivity|].
  destruct (Ascii.eqb c ":"); [discriminate|]. intros H. now rewrite IH.
Qed.

Lemma split_colon_nonempty s : split_colon s <> [].
Proof.
  destruct s as [|c s]; cbn; [discriminate|].
  destruct (Ascii.eqb c ":"); [discriminate|].
  destruct (split_colon s); discriminate.
Qed.

Lemma split_colon_app a b :
  contains_colon a = false ->
  split_colon (a ++ ":" ++ b) = a :: split_colon b.
Proof.
  induction a as [|c a IH]; intros H.
  - reflexivity.
  - rewrite append_cons. cbn in H |- *.
    destruct (Ascii.eqb c ":"); [discriminate|]. now rewrite (IH H).
Qed.

Lemma split_colon_app_any a b :
  exists seg segs,
    split_colon (a ++ ":" ++ b) = (seg :: segs ++ split_colon b)%list.
Proof.
  induction a as [|c a (seg & segs & IH)].
  - now exists "", [].
  - rewrite append_cons. cbn [split_colon]. rewrite IH.
    destruct (Ascii.eqb c ":").
    + now exists "", (seg :: segs).
    + now exists (String c seg), segs.
Qed.

Lemma last_app_nonempty {A} (l l' : list A) d :
  l' <> [] -> List.last (l ++ l') d = List.last l' d.
Proof.
  intros Hl'. induction l as [|x l IH]; [reflexivity|].
  cbn [app]. destruct (l ++ l')%list eqn:E.
  - destruct l; [cbn in E; congruence | discriminate].
  - cbn [List.last]. exact IH.
Qed.

Lemma last_split_colon_app a b :
  List.last (split_colon (a ++ ":" ++ b)) "" = List.last (split_colon b) "".
Proof.
  destruct (split_colon_app_any a b) as (seg & segs & ->).
  apply (last_app_nonempty (seg :: segs)), split_colon_nonempty.
Qed.

(** ** Commands *)

Section CommandProperties.

Context (World : Type).
Context (docker : list string -> option string -> string -> World -> (Z * string) * World).
Context (acquire : DependencySet -> World -> option exn * World).
Context (now : World -> Z).
Context (serialize : Specification -> string).
Context (uid gid : N).
Context (repr : string -> string).
Context (py_int : string -> option Z).

(** [invoke] runs one command and touches nothing of the composition. *)
Lemma invoke_unfold args capture stdin check (st : state World) :
  invoke World docker args capture stdin check st =
  let '((status, out), w) :=
    docker (compose_argv (self st) args) stdin (file (self st)) (world st) in
  if check && negb (status =? 0)
  then (Raise (RuntimeInvocationFailed status), mkState (self st) w)
  else (Return (mkCompletedProcess status (if capture then Some out else None)),
        mkState (self st) w).
Proof. reflexivity. Qed.

Lemma invoke_self args capture stdin check (st : state World) :
  self (snd (invoke World docker args capture stdin check st)) = self st.
Proof.
  rewrite invoke_unfold. destruct (docker _ _ _ _) as [[status out] w].
  now destruct (check && negb (status =? 0)).
Qed.

Lemma pull_if_variable_self names (st : state World) :
  self (snd (pull_if_variable World docker names st)) = self st.
Proof.
  revert st. induction names as [|n rest IH]; intros st; [reflexivity|].
  cbn [pull_if_variable]. unfold bind, get, raise.
  destruct (services (compose (self st)) !! n) as [config|]; [|reflexivity].
  destruct (image config) as [img|]; [|apply IH].
  destruct (variable_tag img); [|apply IH].
  destruct (invoke World docker ["pull"; n] false None true st) as [[u|e] st1] eqn:Hi.
  - rewrite IH. now rewrite <- (invoke_self ["pull"; n] false None true st), Hi.
  - now rewrite <- (invoke_self ["pull"; n] false None true st), Hi.
Qed.

(** X8.  When every named service is in the live specification,
    [pull_if_variable] pulls exactly the named services whose image has a
    variable tag, in the order given, stopping at the first pull that fails,
    and does nothing else. *)
Theorem pull_if_variable_pulls_variable_tags names (st : state World) :
  Forall (fun n => is_Some (services (compose (self st)) !! n)) names ->
  pull_if_variable World docker names st
  = pull_each World docker
      (List.filter (has_variable_tag (compose (self st))) names) st.
Proof.
  revert st. induction names as [|n rest IH]; intros st Hall; [reflexivity|].
  inversion Hall as [|x xs [config Hn] Hrest]; subst.
  cbn [pull_if_variable List.filter]. unfold has_variable_tag at 1.
  unfold bind at 1, get. rewrite Hn.
  destruct (image config) as [img|]; [|now apply IH].
  destruct (variable_tag img); [|now apply IH].
  cbn [pull_each]. unfold bind.
  destruct (invoke World docker ["pull"; n] false None true st) as [[u|e] st1] eqn:Hi;
    [|reflexivity].
  assert (Hs : self st1 = self st)
    by (now rewrite <- (invoke_self ["pull"; n] false None true st), Hi).
  rewrite <- Hs. apply IH. now rewrite Hs.
Qed.

(** X9.  [pull_if_variable] raises [KeyError] at the first named service
    that the live specification does not have, after the pulls for the
    services named before it. *)
Theorem pull_if_variable_unknown_service known n rest (st : state World) :
  Forall (fun k => is_Some (services (compose (self st)) !! k)) known ->
  services (compose (self st)) !! n = None ->
  pull_if_variable World docker (known ++ n :: rest)%list st
  = bind (pull_each World docker
            (List.filter (has_variable_tag (compose (self st))) known))
         (fun _ => raise (KeyError n)) st.
Proof.
  revert st. induction known as [|k known IH]; intros st Hall Hn.
  - cbn [app pull_if_variable List.filter pull_each]. unfold bind, get, ret, raise.
    now rewrite Hn.
  - inversion Hall as [|x xs [config Hk] Hrest]; subst.
    cbn [app pull_if_variable List.filter]. unfold has_variable_tag at 1.
    unfold bind at 1, get. rewrite Hk.
    destruct (image config) as [img|]; [|now apply IH].
    destruct (variable_tag img); [|now apply IH].
    cbn [pull_each]. unfold bind at 1 2 3.
    destruct (invoke World docker ["pull"; k] false None true st) as [[u|e] st1] eqn:Hi;
      [|reflexivity].
    assert (Hs : self st1 = self st)
      by (now rewrite <- (invoke_self ["pull"; k] false None true st), Hi).
    rewrite <- Hs. apply IH; now rewrite Hs.
Qed.

(** X10.  [up] keeps the file in step with the live specification: if the
    file held the serialization of the live specification before, it does so
    after, in persistent mode or not, and whether the command failed or not. *)
Theorem up_keeps_file_in_sync names detach wait persistent (st : state World) :
  in_sync serialize st ->
  in_sync serialize (snd (up World docker serialize names detach wait persistent st)).
Proof.
  unfold in_sync. intros Hsync. destruct persistent.
  - rewrite up_persistent_unfold. cbv zeta.
    destruct (docker _ _ _ _) as [[status out] w].
    destruct (negb (status =? 0)); reflexivity.
  - unfold up, bind, ret. rewrite invoke_unfold.
    destruct (docker _ _ _ _) as [[status out] w].
    destruct (true && negb (status =? 0)); exact Hsync.
Qed.

(** The specification a persistent [up] runs on has the same services as
    the live one; each has the entrypoint [sleep infinity] and an empty
    command, and every other key as it was. *)
Lemma persistent_spec_services d n :
  match services d !! n with
  | None => services (persistent_spec d) !! n = None
  | Some config =>
      exists config',
        services (persistent_spec d) !! n = Some config' /\
        entrypoint config' = Some ["sleep"; "infinity"] /\
        command config' = Some [] /\
        image config' = image config /\
        ports config' = ports config /\
        environment config' = environment config /\
        volumes config' = volumes config /\
        user config' = user config /\
        extra config' = extra config
  end.
Proof.
  unfold persistent_spec. cbn [services set_services]. rewrite lookup_fmap.
  destruct (services d !! n) as [config|]; [|reflexivity].
  eexists. split; [reflexivity|]. cbn. repeat split.
Qed.

(** X11.  [run] first brings the service up with a scale of zero, and when
    that command fails [run] raises, whatever [check] is, without issuing
    the [run] command: only the one command has run. *)
Theorem run_needs_up service args detach rm env_extra capture stdin entrypoint check
    (st : state World) status out w :
  docker (compose_argv (self st) (scale_zero_args service)) None (file (self st))
         (world st) = ((status, out), w) ->
  status <> 0 ->
  run World docker service args detach rm env_extra capture stdin entrypoint check st
  = (Raise (RuntimeInvocationFailed status), mkState (self st) w).
Proof.
  intros Hd Hne. unfold run, bind. rewrite invoke_unfold, Hd.
  apply Z.eqb_neq in Hne. now rewrite Hne.
Qed.

(** [exec] in a service the live specification does not have raises
    [KeyError] and runs no command; in a service it has, the words of the
    service's [entrypoint] come right after the service name and before the
    arguments. *)
Lemma exec_looks_up_service service args detach capture stdin check
    (st : state World) :
  match services (compose (self st)) !! service with
  | None =>
      exec World docker service args detach capture stdin check st
      = (Raise (KeyError service), st)
  | Some config =>
      exec World docker service args detach capture stdin check st
      = invoke World docker
          ((["exec"] ++ (if detach then ["--detach"] else []) ++ ["-T"])
             ++ service :: default [] (entrypoint config) ++ args)%list
          capture stdin check st
  end.
Proof.
  unfold exec, bind, get, raise.
  destruct (services (compose (self st)) !! service) as [config|]; [|reflexivity].
  unfold exec_args. f_equal. now rewrite <- !app_assoc.
Qed.


(** ** Ports *)

Lemma blank_app_colon a b : blank (a ++ ":" ++ b) = false.
Proof.
  induction a as [|c a IH]; [reflexivity|].
  rewrite append_cons. cbn [blank]. rewrite IH. apply andb_false_r.
Qed.

(** X12.  [port] asks the runtime for the mapping of the private port and
    answers with the number after the first colon of what the runtime
    prints, here a host and a port: the integer that [int] reads there; the
    composition is left as it was. *)
Theorem composition_port_reads_second_field service p (st : state World)
    host field w n :
  docker (compose_argv (self st) ["port"; service; str_port p]) None
         (file (self st)) (world st) = ((0, host ++ ":" ++ field), w) ->
  contains_colon host = false ->
  contains_colon field = false ->
  py_int field = Some n ->
  composition_port World docker repr py_int service p st
  = (Return n, mkState (self st) w).
Proof.
  intros Hd Hh Hf Hn. unfold composition_port, bind, ret.
  rewrite invoke_unfold, Hd. cbn [andb negb Z.eqb stdout default from_option id].
  rewrite blank_app_colon, (split_colon_app host field Hh), (split_colon_plain field Hf).
  cbn. now rewrite Hn.
Qed.

(** When the runtime prints nothing but white space for a port,
    [port] raises the not-exposed error, with the hint to check that the
    service is running. *)
Lemma composition_port_not_exposed service p (st : state World) out w :
  docker (compose_argv (self st) ["port"; service; str_port p]) None
         (file (self st)) (world st) = ((0, out), w) ->
  blank out = true ->
  composition_port World docker repr py_int service p st
  = (Raise (UIError ("service f" ++ repr service ++ " is not exposing port "
                     ++ repr_port repr p)
              (Some "is the service running?")),
     mkState (self st) w).
Proof.
  intros Hd Hb. unfold composition_port, bind, raise.
  rewrite invoke_unfold, Hd. cbn [andb negb Z.eqb stdout default from_option id].
  now rewrite Hb.
Qed.

(** X13.  A service that declares no ports comes out of a successful munge
    with an empty port list, and [default_port] of a service with that
    config raises the no-ports error and runs no command. *)
Theorem default_port_of_portless_service r preserve svcs deps svcs' i n config0 :
  _munge_services r preserve uid gid svcs = (Return deps, svcs') ->
  svcs !! i = Some (n, config0) ->
  default [] (ports config0) = [] ->
  exists config,
    svcs' !! i = Some (n, config) /\
    ports config = Some [] /\
    forall service (st : state World),
      services (compose (self st)) !! service = Some config ->
      default_port World docker repr py_int service st
      = (Raise (NoPortsDeclared repr service), st).
Proof.
  unfold _munge_services, bind, ret. intros H Hi Hp.
  destruct (for_services (munge_service r preserve uid gid) svcs)
    as [[imgs|e1] svcs1] eqn:H1; [|discriminate].
  destruct (for_services _ svcs1) as [[l|e2] svcs2] eqn:H2; [|discriminate].
  injection H as <- <-.
  destruct (for_services_return _ _ _ _ H1) as [-> Hall1].
  destruct (for_services_return _ _ _ _ H2) as [-> _].
  rewrite Forall_forall in Hall1.
  assert (Hin : (n, config0) ∈ svcs) by (eapply list_elem_of_lookup_2, Hi).
  specialize (Hall1 _ Hin). unfold succeeds in Hall1. cbn [fst snd] in Hall1.
  destruct (munge_service r preserve uid gid n config0) as [[a|e] c1] eqn:Hm;
    [|discriminate].
  assert (Hr := munge_service_return r preserve uid gid n config0 a).
  rewrite Hm in Hr. destruct (Hr eq_refl) as (_ & _ & Hc1). cbn [snd] in Hc1.
  assert (Hports : ports c1 = Some []).
  { rewrite Hc1, Hp.
    destruct (coverage r); rewrite ?inject_coverage_ports; reflexivity. }
  eexists. split.
  - rewrite !list_lookup_fmap, Hi. cbn. unfold after. cbn [fst snd].
    rewrite Hm. reflexivity.
  - cbn [snd].
    destruct (substitute_image_fields (resolve_dependencies r (concat imgs)) c1)
      as (_ & _ & Eports & _).
    split; [now rewrite Eports|].
    intros service st Hs. unfold default_port, bind, get, raise.
    now rewrite Hs, Eports, Hports.
Qed.

(** X14.  [default_port] resolves the container side of the first port: for
    a first port written [host:container] it asks for [container], for one
    without a colon it asks for the port itself. *)
Theorem default_port_asks_container_port service config p rest (st : state World) :
  services (compose (self st)) !! service = Some config ->
  ports config = Some (p :: rest) ->
  (forall host container,
      str_port p = host ++ ":" ++ container -> contains_colon container = false ->
      default_port World docker repr py_int service st
      = composition_port World docker repr py_int service (PortStr container) st) /\
  (host_bound p = false ->
   default_port World docker repr py_int service st
   = composition_port World docker repr py_int service (PortStr (str_port p)) st).
Proof.
  intros Hs Hp. unfold default_port, bind, get. rewrite Hs, Hp. split.
  - intros host container Hstr Hc. unfold private_port.
    now rewrite Hstr, last_split_colon_app, (split_colon_plain container Hc).
  - intros Hb. unfold private_port. now rewrite (split_colon_plain _ Hb).
Qed.

(** X15.  Rewriting a port to bind the host port of the same number, as the
    munger does under [preserve_ports], does not change the port that
    [default_port] resolves: the container side of every rewritten port is
    the container side of the port it came from. *)
Theorem private_port_after_preserve_ports ps ps' :
  Forall2 (fun p p' =>
             p' = if host_bound p then p
                  else PortStr (str_port p ++ ":" ++ str_port p)) ps ps' ->
  map private_port ps' = map private_port ps.
Proof.
  induction 1 as [|p p' ps ps' Hp _ IH]; [reflexivity|].
  cbn [map]. rewrite IH. f_equal. subst p'.
  destruct (host_bound p); [reflexivity|].
  unfold private_port. cbn [str_port]. apply last_split_colon_app.
Qed.

(** ** Override *)

Lemma install_lookup_other svcs d n :
  n ∉ map fst svcs ->
  services (install svcs d) !! n = services d !! n.
Proof.
  unfold install. cbn [services set_services]. generalize (services d) as m.
  induction svcs as [|[k c] rest IH]; intros m Hn; [reflexivity|].
  cbn [foldl]. cbn [map fst] in Hn. apply not_elem_of_cons in Hn as [Hne Hn].
  rewrite (IH _ Hn). now apply lookup_insert_ne.
Qed.

Lemma install_lookup_in svcs d n c :
  NoDup (map fst svcs) ->
  (n, c) ∈ svcs ->
  services (install svcs d) !! n = Some c.
Proof.
  unfold install. cbn [services set_services]. generalize (services d) as m.
  induction svcs as [|[k c0] rest IH]; intros m Hnd Hin; [inversion Hin|].
  cbn [foldl]. cbn [map fst] in Hnd. apply NoDup_cons in Hnd as [Hk Hnd].
  apply elem_of_cons in Hin as [[= -> ->]|Hin].
  - change (services (install rest (set_services (<[k:=c0]> m) d)) !! k = Some c0).
    rewrite (install_lookup_other rest _ k Hk). cbn. apply lookup_insert_eq.
  - now apply IH.
Qed.

Lemma for_services_names {A} (body : string -> Py ServiceConfig A) svcs o svcs' :
  for_services body svcs = (o, svcs') -> map fst svcs' = map fst svcs.
Proof.
  revert o svcs'. induction svcs as [|[n c] rest IH]; intros o svcs' H; cbn in H.
  - now injection H as _ <-.
  - destruct (body n c) as [[a|e] c'].
    + destruct (for_services body rest) as [o1 rest'] eqn:Hr.
      injection H as _ <-. cbn. f_equal. eapply IH. reflexivity.
    + now injection H as _ <-.
Qed.

Lemma munge_names r preserve svcs o svcs' :
  _munge_services r preserve uid gid svcs = (o, svcs') ->
  map fst svcs' = map fst svcs.
Proof.
  unfold _munge_services, bind, ret.
  destruct (for_services (munge_service r preserve uid gid) svcs)
    as [[imgs|e1] svcs1] eqn:H1.
  - destruct (for_services _ svcs1) as [[l|e2] svcs2] eqn:H2;
      intros [= _ <-];
      rewrite (for_services_names _ _ _ _ H2); apply (for_services_names _ _ _ _ H1).
  - intros [= _ <-]. apply (for_services_names _ _ _ _ H1).
Qed.

(** [override], written out. *)
Lemma override_unfold svcs body (st : state World) :
  override World docker acquire serialize uid gid svcs body st =
  match override_enter World docker acquire serialize uid gid svcs st with
  | (Raise e, st1) => (Raise e, st1)
  | (Return _, st_in) =>
      let '(o, st_out) := body st_in in
      (o, mkState (set_file (serialize (compose (self st)))
                     (set_compose (compose (self st)) (self st_out)))
                  (world st_out))
  end.
Proof.
  unfold override, bind, try_finally.
  destruct (override_enter _ _ _ _ _ _ _ _) as [[u|e] st1]; [|reflexivity].
  destruct (body st1) as [o st_out]. reflexivity.
Qed.

(** What entering an override does, when it succeeds. *)
Lemma override_enter_return svcs (st st_in : state World) :
  override_enter World docker acquire serialize uid gid svcs st = (Return tt, st_in) ->
  exists deps munged,
    _munge_services (repo (self st)) (preserve_ports (self st)) uid gid
      (map (fun s => (service_name s, service_config s)) svcs)
    = (Return deps, munged) /\
    self st_in
    = set_file (serialize (install munged (compose (self st))))
        (set_compose (install munged (compose (self st))) (self st)).
Proof.
  unfold override_enter.
  destruct (_munge_services _ _ _ _ _) as [[deps|e] munged] eqn:Hm; [|discriminate].
  destruct (acquire deps _) as [[e|] w]; [discriminate|].
  unfold bind, _write_compose, modify. cbn [on_self self world].
  intros H. exists deps, munged. split; [reflexivity|].
  match type of H with pull_if_variable _ _ ?ns ?s = _ =>
    assert (Hs := pull_if_variable_self ns s) end.
  rewrite H in Hs. exact Hs.
Qed.

(** X16.  Nested overrides are undone in the reverse order.  With an
    override of [outer] entered and, inside its scope, an override of [inner]
    whose body returns, the code after the inner scope runs on the live
    specification the outer override installed, written to the file; and
    however that code ends, the outer override ends the same way with the
    specification from before both. *)
Theorem override_nested_restores_in_order outer inner body rest
    (st st_outer st_inner st_body : state World) :
  override_enter World docker acquire serialize uid gid outer st
  = (Return tt, st_outer) ->
  override_enter World docker acquire serialize uid gid inner st_outer
  = (Return tt, st_inner) ->
  body st_inner = (Return tt, st_body) ->
  exists st_mid,
    compose (self st_mid) = compose (self st_outer) /\
    file (self st_mid) = serialize (compose (self st_outer)) /\
    world st_mid = world st_body /\
    forall o st_end,
      rest st_mid = (o, st_end) ->
      exists st',
        override World docker acquire serialize uid gid outer
          (bind (override World docker acquire serialize uid gid inner body)
                (fun _ => rest)) st
        = (o, st') /\
        compose (self st') = compose (self st) /\
        file (self st') = serialize (compose (self st)).
Proof.
  intros Houter Hinner Hbody.
  eexists (mkState (set_file (serialize (compose (self st_outer)))
                      (set_compose (compose (self st_outer)) (self st_body)))
                   (world st_body)).
  split; [reflexivity|]. split; [reflexivity|]. split; [reflexivity|].
  intros o st_end Hrest. eexists.
  rewrite override_unfold, Houter. unfold bind at 1.
  rewrite override_unfold, Hinner, Hbody. cbv zeta. rewrite Hrest.
  split; [reflexivity|]. now split.
Qed.

(** X17.  When the munge of the replacement services fails, the override
    raises that error without running its body, and the composition and the
    world are as they were. *)
Theorem override_munge_failure svcs body (st : state World) e munged :
  _munge_services (repo (self st)) (preserve_ports (self st)) uid gid
    (map (fun s => (service_name s, service_config s)) svcs)
  = (Raise e, munged) ->
  override World docker acquire serialize uid gid svcs body st = (Raise e, st).
Proof.
  intros Hm. rewrite override_unfold. unfold override_enter. now rewrite Hm.
Qed.

(** X18.  A failure between the munge and the body is not rolled back: when
    acquiring the dependencies fails, the override raises without running
    its body, the replacement services stay installed in the live
    specification, and the file still holds what it held. *)
Theorem override_acquire_failure svcs body (st : state World) deps munged e w :
  _munge_services (repo (self st)) (preserve_ports (self st)) uid gid
    (map (fun s => (service_name s, service_config s)) svcs)
  = (Return deps, munged) ->
  acquire deps (world st) = (Some e, w) ->
  exists st',
    override World docker acquire serialize uid gid svcs body st = (Raise e, st') /\
    compose (self st') = install munged (compose (self st)) /\
    file (self st') = file (self st) /\
    world st' = w.
Proof.
  intros Hm Ha. rewrite override_unfold. unfold override_enter.
  rewrite Hm. cbn [on_self world]. rewrite Ha.
  eexists. split; [reflexivity|]. now cbn.
Qed.

(** X19.  Entering an override replaces services wholesale and nothing
    else: a service that is not named keeps its config; a named service (the
    names being distinct) has exactly the munged replacement as its config,
    with nothing merged from the old one; the file holds the serialization
    of the result; the recorded test results are untouched. *)
Theorem override_enter_replaces_wholesale svcs (st st_in : state World) :
  override_enter World docker acquire serialize uid gid svcs st = (Return tt, st_in) ->
  exists deps munged,
    _munge_services (repo (self st)) (preserve_ports (self st)) uid gid
      (map (fun s => (service_name s, service_config s)) svcs)
    = (Return deps, munged) /\
    (forall n, n ∉ map service_name svcs ->
               services (compose (self st_in)) !! n = services (compose (self st)) !! n) /\
    (NoDup (map service_name svcs) ->
     forall n config, (n, config) ∈ munged ->
                      services (compose (self st_in)) !! n = Some config) /\
    in_sync serialize st_in /\
    test_results (self st_in) = test_results (self st).
Proof.
  intros H. destruct (override_enter_return _ _ _ H) as (deps & munged & Hm & Hs).
  exists deps, munged. split; [exact Hm|].
  assert (Hnames : map fst munged = map service_name svcs).
  { rewrite (munge_names _ _ _ _ _ Hm), map_map. reflexivity. }
  unfold in_sync. rewrite Hs. cbn [compose set_compose set_file file test_results].
  split; [|split; [|split; reflexivity]].
  - intros n Hn. apply install_lookup_other. now rewrite Hnames.
  - intros Hnd n config Hin. apply install_lookup_in; [now rewrite Hnames | exact Hin].
Qed.

Lemma install_clean munged d :
  clean_spec d ->
  Forall (fun entry => rendered (snd entry)) munged ->
  clean_spec (install munged d).
Proof.
  unfold clean_spec, install. cbn [services set_services].
  generalize (services d) as m.
  induction munged as [|[k c] rest IH]; intros m Hm Hall n config; [apply Hm|].
  inversion Hall as [|x xs Hx Hxs]; subst. cbn [foldl]. apply IH; [|exact Hxs].
  intros n' config'. rewrite lookup_insert. case_decide.
  - now intros [= <-].
  - apply Hm.
Qed.

(** X20.  An override keeps the live specification free of extension keys:
    if every service was rendered before, every service is rendered in the
    specification the body of the override runs on. *)
Theorem override_enter_keeps_clean svcs (st st_in : state World) :
  clean_spec (compose (self st)) ->
  override_enter World docker acquire serialize uid gid svcs st = (Return tt, st_in) ->
  clean_spec (compose (self st_in)).
Proof.
  intros Hclean H.
  destruct (override_enter_return _ _ _ H) as (deps & munged & Hm & ->).
  cbn [compose set_compose set_file].
  apply install_clean; [exact Hclean|].
  eapply munge_renders_every_service, Hm.
Qed.

(** ** Test results *)

Lemma dict_mem_false {V} key (d : list (string * V)) :
  dict_mem key d = false <-> key ∉ map fst d.
Proof using Type.
  unfold dict_mem. induction d as [|[k v] rest IH]; cbn.
  - split; [intros _ H; inversion H | reflexivity].
  - destruct (String.eqb k key) eqn:Hk.
    + apply String.eqb_eq in Hk. subst k. split; [discriminate|].
      intros H. exfalso. apply H. constructor.
    + apply String.eqb_neq in Hk. rewrite IH, not_elem_of_cons.
      split; [intros H; split; [intros ->; now apply Hk | exact H]
             | intros [_ H]; exact H].
Qed.

Lemma dict_set_fresh {V} key (value : V) d :
  dict_mem key d = false -> dict_set key value d = (d ++ [(key, value)])%list.
Proof.
  unfold dict_mem. induction d as [|[k v] rest IH]; cbn; [reflexivity|].
  destruct (String.eqb k key); [discriminate|]. intros H. now rewrite IH.
Qed.

(** X21.  A test case whose body returns or raises an [Exception] adds its
    result after the results recorded so far, which keep their order and
    values -- the body not having recorded anything under the name
    itself. *)
Theorem test_case_appends_result name body (st st1 : state World) o :
  dict_mem name (test_results (self st)) = false ->
  body st = (o, st1) ->
  (forall e, o = Raise e -> is_Exception e = true) ->
  dict_mem name (test_results (self st1)) = false ->
  exists result,
    test_results (self (snd (test_case World now name body st)))
    = (test_results (self st1) ++ [(name, result)])%list /\
    error result = match o with
                   | Return _ => None
                   | Raise e => Some (str_exn e)
                   end.
Proof.
  intros Hfresh Hbody Hexc Hfresh1. unfold test_case. rewrite Hfresh, Hbody.
  destruct o as [u|e].
  - eexists. cbn. rewrite (dict_set_fresh _ _ _ Hfresh1). now split.
  - rewrite (Hexc e eq_refl). eexists. cbn.
    rewrite (dict_set_fresh _ _ _ Hfresh1). now split.
Qed.

(** X22.  A failing test case does not stop the next one.  Two test cases
    in a row under different fresh names, the body of the first raising an
    [Exception], both run and both return; the results, in the order run,
    are added after the earlier ones, the first with the text of the
    exception as its error.  (The bodies leave the test results alone.) *)
Theorem test_cases_continue_after_failure name1 name2 body1 body2
    (st st1 st2 : state World) e o2 :
  name1 <> name2 ->
  dict_mem name1 (test_results (self st)) = false ->
  dict_mem name2 (test_results (self st)) = false ->
  body1 st = (Raise e, st1) ->
  is_Exception e = true ->
  test_results (self st1) = test_results (self st) ->
  let r1 := mkTestResult (now (world st1) - now (world st)) (Some (str_exn e)) in
  body2 (record_result name1 r1 st1) = (o2, st2) ->
  (forall e2, o2 = Raise e2 -> is_Exception e2 = true) ->
  test_results (self st2) = test_results (self (record_result name1 r1 st1)) ->
  exists r2 st',
    bind (test_case World now name1 body1) (fun _ => test_case World now name2 body2) st
    = (Return tt, st') /\
    test_results (self st')
    = (test_results (self st) ++ [(name1, r1); (name2, r2)])%list /\
    error r2 = match o2 with
               | Return _ => None
               | Raise e2 => Some (str_exn e2)
               end.
Proof.
  intros Hne Hf1 Hf2 Hb1 He Hr1 r1 Hb2 He2 Hr2.
  assert (Hres1 : test_results (self (record_result name1 r1 st1))
                  = (test_results (self st) ++ [(name1, r1)])%list).
  { cbn. rewrite Hr1. now apply dict_set_fresh. }
  assert (Hfresh2 : dict_mem name2 (test_results (self (record_result name1 r1 st1)))
                    = false).
  { rewrite Hres1. apply dict_mem_false. rewrite map_app. cbn.
    apply dict_mem_false in Hf2. rewrite elem_of_app, list_elem_of_singleton.
    intros [Hin|Heq]; [now apply Hf2 | now apply Hne]. }
  unfold bind. unfold test_case at 1. rewrite Hf1, Hb1, He. fold r1.
  unfold test_case. rewrite Hfresh2, Hb2.
  assert (Hfin : forall r2,
             dict_set name2 r2 (test_results (self st2))
             = (test_results (self st) ++ [(name1, r1); (name2, r2)])%list).
  { intros r2. rewrite dict_set_fresh by (now rewrite Hr2).
    rewrite Hr2, Hres1, <- app_assoc. reflexivity. }
  destruct o2 as [u|e2].
  - eexists _, _. split; [reflexivity|]. cbn. now rewrite Hfin.
  - rewrite (He2 e2 eq_refl). eexists _, _. split; [reflexivity|]. cbn.
    now rewrite Hfin.
Qed.

(** ** Loading a composition *)

Lemma load_services_return SERVICES seen items :
  load_services repr SERVICES seen = Return items ->
  items = (seen ++ map (fun s => (service_name s, service_config s)) SERVICES)%list /\
  (NoDup (map fst seen) -> NoDup (map fst items)).
Proof.
  revert seen. induction SERVICES as [|s rest IH]; intros seen H; cbn in H.
  - injection H as <-. rewrite app_nil_r. auto.
  - destruct (dict_mem (service_name s) seen) eqn:Hmem; [discriminate|].
    destruct (IH _ H) as [-> Hnd]. split.
    + now rewrite <- app_assoc.
    + intros Hseen. apply Hnd. rewrite map_app. cbn.
      apply NoDup_app. split; [exact Hseen|]. split.
      * intros x Hx Hx'. apply list_elem_of_singleton in Hx'. subst x.
        now apply dict_mem_false in Hmem.
      * apply NoDup_singleton.
Qed.

Lemma load_services_duplicate SERVICES seen :
  ~ NoDup (map fst seen ++ map service_name SERVICES) ->
  NoDup (map fst seen) ->
  exists n,
    n ∈ map service_name SERVICES /\
    load_services repr SERVICES seen = Raise (DuplicateService repr n).
Proof.
  revert seen. induction SERVICES as [|s rest IH]; intros seen Hdup Hseen.
  - cbn in Hdup. rewrite app_nil_r in Hdup. contradiction.
  - cbn [load_services map].
    destruct (dict_mem (service_name s) seen) eqn:Hmem.
    + exists (service_name s). split; [constructor | reflexivity].
    + apply dict_mem_false in Hmem.
      destruct (IH (seen ++ [(service_name s, service_config s)])%list)
        as (n & Hn & Hl).
      * rewrite map_app. cbn. rewrite <- app_assoc. exact Hdup.
      * rewrite map_app. cbn. apply NoDup_app. split; [exact Hseen|]. split.
        -- intros x Hx Hx'. apply list_elem_of_singleton in Hx'. now subst x.
        -- apply NoDup_singleton.
      * exists n. split; [now constructor | exact Hl].
Qed.

Lemma load_services_distinct SERVICES seen :
  NoDup (map fst seen ++ map service_name SERVICES) ->
  load_services repr SERVICES seen
  = Return (seen ++ map (fun s => (service_name s, service_config s)) SERVICES)%list.
Proof.
  revert seen. induction SERVICES as [|s rest IH]; intros seen Hnd; cbn.
  - now rewrite app_nil_r.
  - apply NoDup_app in Hnd as (Hseen & Hdisj & Hrest).
    apply NoDup_cons in Hrest as [Hs Hrest].
    assert (Hmem : dict_mem (service_name s) seen = false).
    { apply dict_mem_false. intros Hin. apply (Hdisj _ Hin). constructor. }
    rewrite Hmem, IH; [now rewrite <- app_assoc|].
    rewrite map_app. cbn. rewrite <- app_assoc. cbn.
    apply NoDup_app. split; [exact Hseen|]. split.
    + exact Hdisj.
    + now constructor.
Qed.

(** X23.  Loading a composition whose [SERVICES] name a service twice fails
    with the specified-more-than-once error for a service of the list, and
    no composition is made. *)
Theorem new_composition_duplicate_service compositions r name path
    preserve silent munge_it project SERVICES fd :
  compositions !! name = Some path ->
  ~ NoDup (map service_name SERVICES) ->
  exists n,
    n ∈ map service_name SERVICES /\
    new_composition serialize uid gid repr compositions r name preserve silent
      munge_it project SERVICES fd
    = Raise (DuplicateService repr n).
Proof.
  intros Hc Hdup. unfold new_composition. rewrite Hc.
  destruct (load_services_duplicate SERVICES []) as (n & Hn & ->);
    [exact Hdup | constructor |].
  now exists n.
Qed.

(** X24.  A composition that was loaded has the version tag [3.7]; exactly
    the five default volumes; the services listed, each once; an empty
    record of test results; a file that holds the serialization of its
    specification; and, unless munging was switched off, no extension key in
    any service. *)
Theorem new_composition_loaded compositions r name preserve silent munge_it
    project SERVICES fd c :
  new_composition serialize uid gid repr compositions r name preserve silent
    munge_it project SERVICES fd = Return c ->
  version (compose c) = "3.7" /\
  spec_volumes (compose c) = default_volumes /\
  NoDup (map service_name SERVICES) /\
  (forall n, is_Some (services (compose c) !! n) <-> n ∈ map service_name SERVICES) /\
  test_results c = [] /\
  file c = serialize (compose c) /\
  (munge_it = true -> clean_spec (compose c)).
Proof.
  unfold new_composition.
  destruct (compositions !! name) as [path|]; [|discriminate].
  destruct (load_services repr SERVICES []) as [items|e] eqn:Hl; [|discriminate].
  destruct (load_services_return _ _ _ Hl) as [Hitems Hnd].
  cbn [app] in Hitems. specialize (Hnd (NoDup_nil_2 (A := string))).
  set (munged := if munge_it then _ else _).
  destruct (fst munged) as [deps|e] eqn:Hm; [|discriminate].
  intros [= <-]. cbn [compose version spec_volumes services test_results file].
  assert (Hnames : map fst (snd munged) = map service_name SERVICES).
  { transitivity (map fst items).
    - unfold munged. destruct munge_it; [|reflexivity].
      eapply munge_names. apply surjective_pairing.
    - rewrite Hitems, map_map. reflexivity. }
  assert (Hnd' : NoDup (map service_name SERVICES)).
  { rewrite Hitems, map_map in Hnd. exact Hnd. }
  split; [reflexivity|]. split; [reflexivity|]. split; [exact Hnd'|].
  split; [|split; [reflexivity|split; [reflexivity|]]].
  - intros n. rewrite <- Hnames, <- not_eq_None_Some.
    rewrite <- (not_elem_of_list_to_map (M := gmap string)).
    split; [apply dec_stable | auto].
  - intros ->. unfold munged in *. intros n config Hlook.
    apply elem_of_list_to_map_2 in Hlook.
    destruct (_munge_services r preserve uid gid items) as [o svcs'] eqn:Hmu.
    cbn [fst snd] in *. subst o.
    pose proof (munge_renders_every_service _ _ _ _ _ _ _ Hmu) as Hall.
    rewrite Forall_forall in Hall. apply (Hall (n, config) Hlook).
Qed.

(** X25.  With munging switched off, a composition whose services have
    distinct names loads, and every service has, verbatim, the config it
    was listed with. *)
Theorem new_composition_without_munge compositions r name path preserve silent
    project SERVICES fd :
  compositions !! name = Some path ->
  NoDup (map service_name SERVICES) ->
  exists c,
    new_composition serialize uid gid repr compositions r name preserve silent
      false project SERVICES fd = Return c /\
    forall s, s ∈ SERVICES ->
              services (compose c) !! service_name s = Some (service_config s).
Proof.
  intros Hc Hnd. unfold new_composition.
  rewrite Hc, (load_services_distinct SERVICES []) by exact Hnd.
  cbn [app fst snd]. eexists. split; [reflexivity|].
  intros s Hs. cbn [compose services].
  apply elem_of_list_to_map_1.
  - now rewrite map_map.
  - apply list_elem_of_fmap. now exists s.
Qed.
End CommandProperties.

(** * The further properties on concrete compositions *)

Lemma munge_service_propagates_user_witness :
  let config := set_propagate_uid_gid (Some true) empty_config in
  fst (munge_service example_repo false 1000 1000 "init" config) = Return [] /\
  propagate_uid_gid (snd (munge_service example_repo false 1000 1000 "init" config))
  = None /\
  user (snd (munge_service example_repo false 1000 1000 "init" config))
  = Some "1000:1000".
Proof.
  cbv zeta. split; [reflexivity|].
  exact (munge_service_propagates_user example_repo false 1000 1000 "init"
           (set_propagate_uid_gid (Some true) empty_config) [] eq_refl).
Defined.

Lemma munge_service_preserves_ports_witness :
  let config := set_ports (Some [PortInt 6875; PortStr "5432:5432"])
                  (set_allow_host_ports (Some true) empty_config) in
  true = true /\
  fst (munge_service example_repo true 1000 1000 "db" config) = Return [] /\
  exists ps',
    ports (snd (munge_service example_repo true 1000 1000 "db" config)) = Some ps' /\
    Forall2 (fun p p' =>
               p' = if host_bound p then p
                    else PortStr (str_port p ++ ":" ++ str_port p))
            (default [] (ports config)) ps' /\
    Forall (fun p' => host_bound p' = true) ps'.
Proof.
  cbv zeta. split; [reflexivity|]. split; [reflexivity|].
  exact (munge_service_preserves_ports example_repo true 1000 1000 "db"
           (set_ports (Some [PortInt 6875; PortStr "5432:5432"])
              (set_allow_host_ports (Some true) empty_config)) [] eq_refl eq_refl).
Defined.

Lemma munge_service_keeps_ports_witness :
  let config := set_ports (Some [PortInt 6875; PortInt 6876]) empty_config in
  false = false /\
  fst (munge_service example_repo false 1000 1000 "db" config) = Return [] /\
  ports (snd (munge_service example_repo false 1000 1000 "db" config))
  = Some [PortInt 6875; PortInt 6876].
Proof.
  cbv zeta. split; [reflexivity|]. split; [reflexivity|].
  exact (munge_service_keeps_ports example_repo false 1000 1000 "db"
           (set_ports (Some [PortInt 6875; PortInt 6876]) empty_config) []
           eq_refl eq_refl).
Defined.

Lemma munge_service_again_fails_witness :
  let config := set_ports (Some [PortInt 6875]) empty_config in
  let once := snd (munge_service example_repo true 1000 1000 "db" config) in
  fst (munge_service example_repo true 1000 1000 "db" config) = Return [] /\
  ports once = Some [PortStr "6875:6875"] /\
  [PortStr "6875:6875"] !! 0%nat = Some (PortStr "6875:6875") /\
  host_bound (PortStr "6875:6875") = true /\
  fst (munge_service example_repo true 1000 1000 "db" once) = Raise DisallowedHostPort.
Proof.
  cbv zeta. split; [reflexivity|]. split; [reflexivity|]. split; [reflexivity|].
  split; [reflexivity|].
  exact (munge_service_again_fails example_repo true 1000 1000 "db"
           (set_ports (Some [PortInt 6875]) empty_config) []
           [PortStr "6875:6875"] 0%nat (PortStr "6875:6875")
           eq_refl eq_refl eq_refl eq_refl).
Defined.

Lemma munge_keeps_other_keys_witness :
  let svcs := [("materialized", set_mzbuild (Some "materialized") empty_config);
               ("postgres", postgres_config)] in
  let deps := example_resolve ["materialized"] in
  let svcs' := snd (_munge_services example_repo false 1000 1000 svcs) in
  _munge_services example_repo false 1000 1000 svcs = (Return deps, svcs') /\
  Forall2 (fun before after_ =>
             entrypoint (snd after_) = entrypoint (snd before) /\
             command (snd after_) = command (snd before) /\
             extra (snd after_) = extra (snd before) /\
             (coverage example_repo = false ->
              environment (snd after_) = environment (snd before) /\
              volumes (snd after_) = volumes (snd before)))
          svcs svcs'.
Proof.
  cbv zeta.
  assert (H : _munge_services example_repo false 1000 1000
                [("materialized", set_mzbuild (Some "materialized") empty_config);
                 ("postgres", postgres_config)]
              = (Return (example_resolve ["materialized"]),
                 snd (_munge_services example_repo false 1000 1000
                        [("materialized", set_mzbuild (Some "materialized") empty_config);
                         ("postgres", postgres_config)]))).
  { vm_compute. reflexivity. }
  split; [exact H|].
  exact (munge_keeps_other_keys example_repo false 1000 1000 _ _ _ H).
Defined.

Lemma pull_if_variable_pulls_variable_tags_witness :
  Forall (fun n => is_Some (services (compose (self two_services_state)) !! n))
    ["postgres"; "materialized"] /\
  pull_if_variable Z (example_docker 0) ["postgres"; "materialized"] two_services_state
  = pull_each Z (example_docker 0)
      (List.filter (has_variable_tag (compose (self two_services_state)))
         ["postgres"; "materialized"]) two_services_state.
Proof.
  assert (H : Forall (fun n => is_Some (services (compose (self two_services_state)) !! n))
                ["postgres"; "materialized"]).
  { constructor; [eexists; vm_compute; reflexivity|].
    constructor; [eexists; vm_compute; reflexivity|]. constructor. }
  split; [exact H|].
  exact (pull_if_variable_pulls_variable_tags Z (example_docker 0) _ _ H).
Defined.

Lemma pull_if_variable_unknown_service_witness :
  Forall (fun k => is_Some (services (compose (self two_services_state)) !! k))
    ["materialized"] /\
  services (compose (self two_services_state)) !! "redis" = None /\
  pull_if_variable Z (example_docker 0) (["materialized"] ++ "redis" :: ["postgres"])%list
    two_services_state
  = bind (pull_each Z (example_docker 0)
            (List.filter (has_variable_tag (compose (self two_services_state)))
               ["materialized"]))
         (fun _ => raise (KeyError "redis")) two_services_state.
Proof.
  assert (H : Forall (fun k => is_Some (services (compose (self two_services_state)) !! k))
                ["materialized"]).
  { constructor; [eexists; vm_compute; reflexivity|]. constructor. }
  assert (H2 : services (compose (self two_services_state)) !! "redis" = None)
    by (vm_compute; reflexivity).
  split; [exact H|]. split; [exact H2|].
  exact (pull_if_variable_unknown_service Z (example_docker 0) _ _ _ _ H H2).
Defined.

Lemma up_keeps_file_in_sync_witness :
  in_sync example_dump two_services_state /\
  in_sync example_dump
    (snd (up Z (example_docker 1) example_dump ["postgres"] true true true
            two_services_state)).
Proof.
  assert (H : in_sync example_dump two_services_state) by reflexivity.
  split; [exact H|].
  exact (up_keeps_file_in_sync Z (example_docker 1) example_dump ["postgres"]
           true true true two_services_state H).
Defined.

Lemma run_needs_up_witness :
  example_docker 2
    (compose_argv (self two_services_state) (scale_zero_args "postgres")) None
    (file (self two_services_state)) (world two_services_state)
  = ((2, ""), 101) /\
  2 <> 0 /\
  run Z (example_docker 2) "postgres" ["psql"] false true [] false None None false
    two_services_state
  = (Raise (RuntimeInvocationFailed 2), mkState (self two_services_state) 101).
Proof.
  split; [reflexivity|]. split; [lia|].
  apply (run_needs_up Z (example_docker 2) "postgres" ["psql"] false true [] false
           None None false two_services_state 2 "" 101); [reflexivity | lia].
Defined.

Lemma composition_port_reads_second_field_witness :
  example_port_docker
    (compose_argv (self two_services_state) ["port"; "postgres"; str_port (PortInt 5432)])
    None (file (self two_services_state)) (world two_services_state)
  = ((0, "0.0.0.0" ++ ":" ++ ("49153" ++ newline)), 101) /\
  contains_colon "0.0.0.0" = false /\
  contains_colon ("49153" ++ newline) = false /\
  example_int ("49153" ++ newline) = Some 49153 /\
  composition_port Z example_port_docker example_repr example_int "postgres"
    (PortInt 5432) two_services_state
  = (Return 49153, mkState (self two_services_state) 101).
Proof.
  split; [reflexivity|]. split; [reflexivity|]. split; [reflexivity|].
  split; [reflexivity|].
  exact (composition_port_reads_second_field Z example_port_docker example_repr
           example_int "postgres" (PortInt 5432) two_services_state
           "0.0.0.0" ("49153" ++ newline) 101 49153
           eq_refl eq_refl eq_refl eq_refl).
Defined.

Lemma composition_port_not_exposed_witness :
  example_docker 0
    (compose_argv (self two_services_state) ["port"; "postgres"; str_port (PortInt 9999)])
    None (file (self two_services_state)) (world two_services_state)
  = ((0, ""), 101) /\
  blank "" = true /\
  composition_port Z (example_docker 0) example_repr example_int "postgres"
    (PortInt 9999) two_services_state
  = (Raise (UIError ("service f" ++ example_repr "postgres" ++ " is not exposing port "
                     ++ repr_port example_repr (PortInt 9999))
              (Some "is the service running?")),
     mkState (self two_services_state) 101).
Proof.
  split; [reflexivity|]. split; [reflexivity|].
  exact (composition_port_not_exposed Z (example_docker 0) example_repr example_int
           "postgres" (PortInt 9999) two_services_state "" 101 eq_refl eq_refl).
Defined.

Lemma default_port_of_portless_service_witness :
  let svcs := [("postgres", postgres_config)] in
  let svcs' := snd (_munge_services example_repo false 1000 1000 svcs) in
  _munge_services example_repo false 1000 1000 svcs
  = (Return (example_resolve []), svcs') /\
  svcs !! 0%nat = Some ("postgres", postgres_config) /\
  default [] (ports postgres_config) = [] /\
  exists config,
    svcs' !! 0%nat = Some ("postgres", config) /\
    ports config = Some [] /\
    forall service (st : state Z),
      services (compose (self st)) !! service = Some config ->
      default_port Z (example_docker 0) example_repr example_int service st
      = (Raise (NoPortsDeclared example_repr service), st).
Proof.
  cbv zeta.
  assert (H : _munge_services example_repo false 1000 1000 [("postgres", postgres_config)]
              = (Return (example_resolve []),
                 snd (_munge_services example_repo false 1000 1000
                        [("postgres", postgres_config)])))
    by (vm_compute; reflexivity).
  split; [exact H|]. split; [reflexivity|]. split; [reflexivity|].
  exact (default_port_of_portless_service Z (example_docker 0) 1000 1000 example_repr
           example_int example_repo false _ _ _ 0%nat "postgres" postgres_config
           H eq_refl eq_refl).
Defined.

Lemma default_port_asks_container_port_witness :
  services (compose (self two_services_state)) !! "postgres" = Some rendered_postgres /\
  ports rendered_postgres = Some [PortStr "5432:5432"] /\
  (forall host container,
      str_port (PortStr "5432:5432") = host ++ ":" ++ container ->
      contains_colon container = false ->
      default_port Z example_port_docker example_repr example_int "postgres"
        two_services_state
      = composition_port Z example_port_docker example_repr example_int "postgres"
          (PortStr container) two_services_state) /\
  (host_bound (PortStr "5432:5432") = false ->
   default_port Z example_port_docker example_repr example_int "postgres"
     two_services_state
   = composition_port Z example_port_docker example_repr example_int "postgres"
       (PortStr (str_port (PortStr "5432:5432"))) two_services_state).
Proof.
  assert (H : services (compose (self two_services_state)) !! "postgres"
              = Some rendered_postgres) by (vm_compute; reflexivity).
  split; [exact H|]. split; [reflexivity|].
  exact (default_port_asks_container_port Z example_port_docker example_repr
           example_int "postgres" rendered_postgres (PortStr "5432:5432") []
           two_services_state H eq_refl).
Defined.

Lemma private_port_after_preserve_ports_witness :
  Forall2 (fun p p' =>
             p' = if host_bound p then p
                  else PortStr (str_port p ++ ":" ++ str_port p))
    [PortInt 6875; PortStr "5432:5432"] [PortStr "6875:6875"; PortStr "5432:5432"] /\
  map private_port [PortStr "6875:6875"; PortStr "5432:5432"]
  = map private_port [PortInt 6875; PortStr "5432:5432"].
Proof.
  assert (H : Forall2 (fun p p' =>
                         p' = if host_bound p then p
                              else PortStr (str_port p ++ ":" ++ str_port p))
                [PortInt 6875; PortStr "5432:5432"]
                [PortStr "6875:6875"; PortStr "5432:5432"]).
  { constructor; [reflexivity|]. constructor; [reflexivity|]. constructor. }
  split; [exact H|].
  exact (private_port_after_preserve_ports _ _ H).
Defined.

Lemma override_nested_restores_in_order_witness :
  let outer := [mkService "postgres" (set_image (Some "postgres:15") empty_config)] in
  let inner := [mkService "materialized"
                  (set_image (Some "materialize/materialized:v1") empty_config)] in
  let enter := override_enter Z (example_docker 0) example_acquire example_dump
                 1000 1000 in
  let st := two_services_state in
  let st_outer := snd (enter outer st) in
  let st_inner := snd (enter inner st_outer) in
  enter outer st = (Return tt, st_outer) /\
  enter inner st_outer = (Return tt, st_inner) /\
  returning st_inner = (Return tt, st_inner) /\
  exists st_mid,
    compose (self st_mid) = compose (self st_outer) /\
    file (self st_mid) = example_dump (compose (self st_outer)) /\
    world st_mid = world st_inner /\
    forall o st_end,
      passing st_mid = (o, st_end) ->
      exists st',
        override Z (example_docker 0) example_acquire example_dump 1000 1000 outer
          (bind (override Z (example_docker 0) example_acquire example_dump 1000 1000
                   inner returning)
                (fun _ => passing)) st
        = (o, st') /\
        compose (self st') = compose (self st) /\
        file (self st') = example_dump (compose (self st)).
Proof.
  cbv zeta.
  assert (H1 : override_enter Z (example_docker 0) example_acquire example_dump 1000 1000
                 [mkService "postgres" (set_image (Some "postgres:15") empty_config)]
                 two_services_state
               = (Return tt,
                  snd (override_enter Z (example_docker 0) example_acquire example_dump
                         1000 1000
                         [mkService "postgres"
                            (set_image (Some "postgres:15") empty_config)]
                         two_services_state)))
    by (vm_compute; reflexivity).
  assert (H2 : override_enter Z (example_docker 0) example_acquire example_dump 1000 1000
                 [mkService "materialized"
                    (set_image (Some "materialize/materialized:v1") empty_config)]
                 (snd (override_enter Z (example_docker 0) example_acquire example_dump
                         1000 1000
                         [mkService "postgres"
                            (set_image (Some "postgres:15") empty_config)]
                         two_services_state))
               = (Return tt,
                  snd (override_enter Z (example_docker 0) example_acquire example_dump
                         1000 1000
                         [mkService "materialized"
                            (set_image (Some "materialize/materialized:v1") empty_config)]
                         (snd (override_enter Z (example_docker 0) example_acquire
                                 example_dump 1000 1000
                                 [mkService "postgres"
                                    (set_image (Some "postgres:15") empty_config)]
                                 two_services_state)))))
    by (vm_compute; reflexivity).
  split; [exact H1|]. split; [exact H2|]. split; [reflexivity|].
  exact (override_nested_restores_in_order Z (example_docker 0) example_acquire
           example_dump 1000 1000 _ _ returning passing _ _ _ _ H1 H2 eq_refl).
Defined.

Lemma override_munge_failure_witness :
  let svcs := [mkService "web" (set_mzbuild (Some "ghost") empty_config)] in
  let st := two_services_state in
  let munged := snd (_munge_services (repo (self st)) (preserve_ports (self st))
                       1000 1000
                       (map (fun s => (service_name s, service_config s)) svcs)) in
  _munge_services (repo (self st)) (preserve_ports (self st)) 1000 1000
    (map (fun s => (service_name s, service_config s)) svcs)
  = (Raise (UnknownBuildTarget "ghost"), munged) /\
  override Z (example_docker 0) example_acquire example_dump 1000 1000 svcs passing st
  = (Raise (UnknownBuildTarget "ghost"), st).
Proof.
  cbv zeta.
  assert (H : _munge_services (repo (self two_services_state))
                (preserve_ports (self two_services_state)) 1000 1000
                (map (fun s => (service_name s, service_config s))
                   [mkService "web" (set_mzbuild (Some "ghost") empty_config)])
              = (Raise (UnknownBuildTarget "ghost"),
                 snd (_munge_services (repo (self two_services_state))
                        (preserve_ports (self two_services_state)) 1000 1000
                        (map (fun s => (service_name s, service_config s))
                           [mkService "web"
                              (set_mzbuild (Some "ghost") empty_config)]))))
    by reflexivity.
  split; [exact H|].
  exact (override_munge_failure Z (example_docker 0) example_acquire example_dump
           1000 1000 _ passing two_services_state _ _ H).
Defined.

Lemma override_acquire_failure_witness :
  let svcs := [mkService "postgres" (set_image (Some "postgres:15") empty_config)] in
  let st := two_services_state in
  let failure := PyException "RuntimeError" "cannot acquire" in
  let munged := snd (_munge_services (repo (self st)) (preserve_ports (self st))
                       1000 1000
                       (map (fun s => (service_name s, service_config s)) svcs)) in
  _munge_services (repo (self st)) (preserve_ports (self st)) 1000 1000
    (map (fun s => (service_name s, service_config s)) svcs)
  = (Return (example_resolve []), munged) /\
  example_failing_acquire (example_resolve []) (world st) = (Some failure, 107) /\
  exists st',
    override Z (example_docker 0) example_failing_acquire example_dump 1000 1000
      svcs passing st = (Raise failure, st') /\
    compose (self st') = install munged (compose (self st)) /\
    file (self st') = file (self st) /\
    world st' = 107.
Proof.
  cbv zeta.
  assert (H : _munge_services (repo (self two_services_state))
                (preserve_ports (self two_services_state)) 1000 1000
                (map (fun s => (service_name s, service_config s))
                   [mkService "postgres" (set_image (Some "postgres:15") empty_config)])
              = (Return (example_resolve []),
                 snd (_munge_services (repo (self two_services_state))
                        (preserve_ports (self two_services_state)) 1000 1000
                        (map (fun s => (service_name s, service_config s))
                           [mkService "postgres"
                              (set_image (Some "postgres:15") empty_config)]))))
    by (vm_compute; reflexivity).
  split; [exact H|]. split; [reflexivity|].
  exact (override_acquire_failure Z (example_docker 0) example_failing_acquire
           example_dump 1000 1000 _ passing two_services_state _ _ _ 107 H eq_refl).
Defined.

Lemma override_enter_replaces_wholesale_witness :
  let svcs := [mkService "postgres" (set_image (Some "postgres:15") empty_config)] in
  let st := two_services_state in
  let st_in := snd (override_enter Z (example_docker 0) example_acquire example_dump
                      1000 1000 svcs st) in
  override_enter Z (example_docker 0) example_acquire example_dump 1000 1000 svcs st
  = (Return tt, st_in) /\
  exists deps munged,
    _munge_services (repo (self st)) (preserve_ports (self st)) 1000 1000
      (map (fun s => (service_name s, service_config s)) svcs)
    = (Return deps, munged) /\
    (forall n, n ∉ map service_name svcs ->
               services (compose (self st_in)) !! n = services (compose (self st)) !! n) /\
    (NoDup (map service_name svcs) ->
     forall n config, (n, config) ∈ munged ->
                      services (compose (self st_in)) !! n = Some config) /\
    in_sync example_dump st_in /\
    test_results (self st_in) = test_results (self st).
Proof.
  cbv zeta.
  assert (H : override_enter Z (example_docker 0) example_acquire example_dump 1000 1000
                [mkService "postgres" (set_image (Some "postgres:15") empty_config)]
                two_services_state
              = (Return tt,
                 snd (override_enter Z (example_docker 0) example_acquire example_dump
                        1000 1000
                        [mkService "postgres"
                           (set_image (Some "postgres:15") empty_config)]
                        two_services_state)))
    by (vm_compute; reflexivity).
  split; [exact H|].
  exact (override_enter_replaces_wholesale Z (example_docker 0) example_acquire
           example_dump 1000 1000 _ _ _ H).
Defined.

Lemma two_services_spec_clean : clean_spec two_services_spec.
Proof.
  intros n config H. unfold two_services_spec in H. cbn [services] in H.
  apply lookup_insert_Some in H as [[_ <-]|[_ H]].
  - unfold rendered. cbn. eauto.
  - apply lookup_singleton_Some in H as [_ <-]. unfold rendered. cbn. eauto.
Defined.

Lemma override_enter_keeps_clean_witness :
  let svcs := [mkService "postgres"
                 (set_allow_host_ports (Some true)
                    (set_ports (Some [PortStr "5432:5432"])
                       (set_image (Some "postgres:15") empty_config)))] in
  let st := two_services_state in
  let st_in := snd (override_enter Z (example_docker 0) example_acquire example_dump
                      1000 1000 svcs st) in
  clean_spec (compose (self st)) /\
  override_enter Z (example_docker 0) example_acquire example_dump 1000 1000 svcs st
  = (Return tt, st_in) /\
  clean_spec (compose (self st_in)).
Proof.
  cbv zeta.
  assert (H : override_enter Z (example_docker 0) example_acquire example_dump 1000 1000
                [mkService "postgres"
                   (set_allow_host_ports (Some true)
                      (set_ports (Some [PortStr "5432:5432"])
                         (set_image (Some "postgres:15") empty_config)))]
                two_services_state
              = (Return tt,
                 snd (override_enter Z (example_docker 0) example_acquire example_dump
                        1000 1000
                        [mkService "postgres"
                           (set_allow_host_ports (Some true)
                              (set_ports (Some [PortStr "5432:5432"])
                                 (set_image (Some "postgres:15") empty_config)))]
                        two_services_state)))
    by (vm_compute; reflexivity).
  split; [exact two_services_spec_clean|]. split; [exact H|].
  exact (override_enter_keeps_clean Z (example_docker 0) example_acquire example_dump
           1000 1000 _ two_services_state _ two_services_spec_clean H).
Defined.

Lemma test_case_appends_result_witness :
  let failure := UIError "query returned no rows" None in
  let st1 := snd (failing_query example_state) in
  dict_mem "smoke" (test_results (self example_state)) = false /\
  failing_query example_state = (Raise failure, st1) /\
  (forall e, Raise (A := unit) failure = Raise e -> is_Exception e = true) /\
  dict_mem "smoke" (test_results (self st1)) = false /\
  exists result,
    test_results (self (snd (test_case Z example_now "smoke" failing_query
                               example_state)))
    = (test_results (self st1) ++ [("smoke", result)])%list /\
    error result = Some (str_exn failure).
Proof.
  cbv zeta.
  assert (H3 : forall e, Raise (A := unit) (UIError "query returned no rows" None) = Raise e ->
                         is_Exception e = true)
    by (intros e [= <-]; reflexivity).
  split; [reflexivity|]. split; [reflexivity|]. split; [exact H3|].
  split; [reflexivity|].
  exact (test_case_appends_result Z example_now "smoke" failing_query example_state
           _ _ eq_refl eq_refl H3 eq_refl).
Defined.

Lemma test_cases_continue_after_failure_witness :
  let failure := UIError "query returned no rows" None in
  let st := example_state in
  let st1 := snd (failing_query st) in
  let r1 := mkTestResult (example_now (world st1) - example_now (world st))
              (Some (str_exn failure)) in
  let st2 := snd (passing (record_result "first" r1 st1)) in
  "first" <> "second" /\
  dict_mem "first" (test_results (self st)) = false /\
  dict_mem "second" (test_results (self st)) = false /\
  failing_query st = (Raise failure, st1) /\
  is_Exception failure = true /\
  test_results (self st1) = test_results (self st) /\
  passing (record_result "first" r1 st1) = (Return tt, st2) /\
  (forall e2, Return (A := unit) tt = Raise e2 -> is_Exception e2 = true) /\
  test_results (self st2) = test_results (self (record_result "first" r1 st1)) /\
  exists r2 st',
    bind (test_case Z example_now "first" failing_query)
         (fun _ => test_case Z example_now "second" passing) st
    = (Return tt, st') /\
    test_results (self st')
    = (test_results (self st) ++ [("first", r1); ("second", r2)])%list /\
    error r2 = None.
Proof.
  cbv zeta.
  assert (Hne : "first" <> "second") by discriminate.
  assert (H8 : forall e2, Return (A := unit) tt = Raise e2 -> is_Exception e2 = true)
    by discriminate.
  split; [exact Hne|]. split; [reflexivity|]. split; [reflexivity|].
  split; [reflexivity|]. split; [reflexivity|]. split; [reflexivity|].
  split; [reflexivity|]. split; [exact H8|]. split; [reflexivity|].
  exact (test_cases_continue_after_failure Z example_now "first" "second"
           failing_query passing example_state _ _ _ (Return tt)
           Hne eq_refl eq_refl eq_refl eq_refl eq_refl eq_refl H8 eq_refl).
Defined.

Lemma new_composition_duplicate_service_witness :
  let SERVICES := [mkService "postgres" postgres_config;
                   mkService "postgres" empty_config] in
  example_compositions !! "demo" = Some "/demo" /\
  ~ NoDup (map service_name SERVICES) /\
  exists n,
    n ∈ map service_name SERVICES /\
    new_composition example_dump 1000 1000 example_repr example_compositions
      example_repo "demo" false true true None SERVICES 3
    = Raise (DuplicateService example_repr n).
Proof.
  cbv zeta.
  assert (H1 : example_compositions !! "demo" = Some "/demo") by (vm_compute; reflexivity).
  assert (H2 : ~ NoDup (map service_name [mkService "postgres" postgres_config;
                                          mkService "postgres" empty_config])).
  { cbn. intros H. apply NoDup_cons in H as [Hnotin _]. apply Hnotin. constructor. }
  split; [exact H1|]. split; [exact H2|].
  exact (new_composition_duplicate_service example_dump 1000 1000 example_repr
           example_compositions example_repo "demo" "/demo" false true true None
           _ 3 H1 H2).
Defined.

Lemma new_composition_loaded_witness :
  let SERVICES := [mkService "materialized"
                     (set_propagate_uid_gid (Some true)
                        (set_mzbuild (Some "materialized") empty_config));
                   mkService "postgres" postgres_config] in
  let loaded := new_composition example_dump 1000 1000 example_repr
                  example_compositions example_repo "demo" false true true None
                  SERVICES 3 in
  exists c,
    loaded = Return c /\
    version (compose c) = "3.7" /\
    spec_volumes (compose c) = default_volumes /\
    NoDup (map service_name SERVICES) /\
    (forall n, is_Some (services (compose c) !! n) <-> n ∈ map service_name SERVICES) /\
    test_results c = [] /\
    file c = example_dump (compose c) /\
    (true = true -> clean_spec (compose c)).
Proof.
  cbv zeta.
  destruct (new_composition example_dump 1000 1000 example_repr example_compositions
              example_repo "demo" false true true None
              [mkService "materialized"
                 (set_propagate_uid_gid (Some true)
                    (set_mzbuild (Some "materialized") empty_config));
               mkService "postgres" postgres_config] 3) as [c|e] eqn:H.
  - exists c. split; [reflexivity|].
    exact (new_composition_loaded example_dump 1000 1000 example_repr
             example_compositions example_repo "demo" false true true None _ 3 c H).
  - vm_compute in H. discriminate.
Defined.

Lemma new_composition_without_munge_witness :
  let SERVICES := [mkService "materialized"
                     (set_mzbuild (Some "materialized") empty_config);
                   mkService "postgres" postgres_config] in
  example_compositions !! "demo" = Some "/demo" /\
  NoDup (map service_name SERVICES) /\
  exists c,
    new_composition example_dump 1000 1000 example_repr example_compositions
      example_repo "demo" false true false None SERVICES 3 = Return c /\
    forall s, s ∈ SERVICES ->
              services (compose c) !! service_name s = Some (service_config s).
Proof.
  cbv zeta.
  assert (H1 : example_compositions !! "demo" = Some "/demo") by (vm_compute; reflexivity).
  assert (H2 : NoDup (map service_name
                        [mkService "materialized"
                           (set_mzbuild (Some "materialized") empty_config);
                         mkService "postgres" postgres_config])).
  { cbn. apply NoDup_cons. split.
    - intros H. apply list_elem_of_singleton in H. discriminate.
    - apply NoDup_singleton. }
  split; [exact H1|]. split; [exact H2|].
  exact (new_composition_without_munge example_dump 1000 1000 example_repr
           example_compositions example_repo "demo" "/demo" false true None _ 3 H1 H2).
Defined.

(** ** A persistent [up] that succeeds *)

Section PersistentUp.

Context (World : Type).
Context (docker : list string -> option string -> string -> World -> (Z * string) * World).
Context (serialize : Specification -> string).


End PersistentUp.

